(** * Github-Crawler-AI: keyword filter, paginated search, deduplication and
    classification fallbacks, embedded from the Python sources

  The development follows [src/github_crawler/crawler.py],
  [src/github_crawler/analyzer.py] and [src/github_crawler/utils.py].

  Conventions of the embedding:
  - a Python [str] is a [string] of Latin-1 code points;
  - a JSON value read by the pipeline is a [value]; a repository [dict] is
    a [gmap string value];
  - a Python call that can raise returns a [result]; [print] changes
    neither a return value nor an attribute that the code reads back, and
    is left out, and so is [time.sleep] where it sleeps a constant; the
    sleep of the rate-limit wait, whose length comes from a header, can
    raise and is modelled. *)

From Stdlib Require Import ZArith NArith Ascii String List Bool Lia.
From Stdlib Require Import DecimalString.
From stdpp Require Import base option list gmap strings sorting.

Local Open Scope string_scope.
Local Open Scope list_scope.
Local Open Scope Z_scope.

(** ** Python strings *)

Module PyStr.

(** [str.lower] on one code point below 256: A-Z and the Latin-1 capitals
    (all of 0xC0-0xDE but the multiplication sign) move up by 32. *)
Definition lower_char (c : ascii) : ascii :=
  let n := N_of_ascii c in
  if ((65 <=? n) && (n <=? 90) ||
      (192 <=? n) && (n <=? 222) && negb (n =? 215))%N
  then ascii_of_N (n + 32) else c.

(** [s.lower()] *)
Fixpoint lower (s : string) : string :=
  match s with
  | EmptyString => EmptyString
  | String c s' => String (lower_char c) (lower s')
  end.

(** [s.startswith(p)] *)
Fixpoint startswith (p s : string) : bool :=
  match p, s with
  | EmptyString, _ => true
  | String _ _, EmptyString => false
  | String a p', String b s' => Ascii.eqb a b && startswith p' s'
  end.

(** [k in s] for two strings: [k] occurs in [s] as a contiguous run. *)
Fixpoint contains (k s : string) : bool :=
  startswith k s ||
  match s with
  | EmptyString => false
  | String _ s' => contains k s'
  end.

(** [s[n:]] *)
Fixpoint slice_from (n : nat) (s : string) : string :=
  match n, s with
  | O, _ => s
  | S _, EmptyString => EmptyString
  | S n', String _ s' => slice_from n' s'
  end.

(** [s[:n]] *)
Fixpoint slice_to (n : nat) (s : string) : string :=
  match n, s with
  | O, _ => EmptyString
  | S _, EmptyString => EmptyString
  | S n', String c s' => String c (slice_to n' s')
  end.

(** [s.split(sep, 1)[1]]: what follows the first occurrence of [sep];
    [None] is the [IndexError] of indexing the one-element list that
    [split] returns when [sep] does not occur. *)
Fixpoint after_first (sep s : string) : option string :=
  if startswith sep s then Some (slice_from (String.length sep) s)
  else match s with
       | EmptyString => None
       | String _ s' => after_first sep s'
       end.

(** [c.isspace()] below 256. *)
Definition isspace (c : ascii) : bool :=
  let n := N_of_ascii c in
  ((9 <=? n) && (n <=? 13) || (28 <=? n) && (n <=? 32) ||
   (n =? 133) || (n =? 160))%N.

Fixpoint lstrip (s : string) : string :=
  match s with
  | EmptyString => EmptyString
  | String c s' => if isspace c then lstrip s' else s
  end.

Fixpoint rstrip (s : string) : string :=
  match s with
  | EmptyString => EmptyString
  | String c s' =>
      match rstrip s' with
      | EmptyString => if isspace c then EmptyString else String c EmptyString
      | t => String c t
      end
  end.

(** [s.strip()] *)
Definition strip (s : string) : string := rstrip (lstrip s).

(** [sep.join(l)] for a list of strings. *)
Definition join (sep : string) (l : list string) : string :=
  String.concat sep l.

(** [str(n)] for an [int], as an f-string prints it. *)
Definition str_of_int (n : Z) : string :=
  NilZero.string_of_int (Z.to_int n).

(** The characters of a string, as iterating over it yields them. *)
Fixpoint chars (s : string) : list string :=
  match s with
  | EmptyString => []
  | String c s' => String c EmptyString :: chars s'
  end.

Definition digit_val (c : ascii) : option Z :=
  let n := N_of_ascii c in
  if ((48 <=? n) && (n <=? 57))%N then Some (Z.of_N n - 48) else None.

(** Digits of a decimal literal, with single underscores allowed between
    two digits; [acc] is the value read so far and [prev] tells whether
    the previous character was a digit. *)
Fixpoint int_digits (s : string) (acc : Z) (prev : bool) : option Z :=
  match s with
  | EmptyString => if prev then Some acc else None
  | String c s' =>
      match digit_val c with
      | Some d => int_digits s' (10 * acc + d) true
      | None =>
          if (Ascii.eqb c "_" && prev)%bool then
            match s' with
            | String c' _ =>
                if is_Some_dec (digit_val c') then int_digits s' acc false
                else None
            | EmptyString => None
            end
          else None
      end
  end.

(** [int(s)] for a string: surrounding whitespace, one optional sign,
    then decimal digits; [None] is [ValueError]. *)
Definition int_of_str (s : string) : option Z :=
  match strip s with
  | String "-" t => Z.opp <$> int_digits t 0 false
  | String "+" t => int_digits t 0 false
  | t => int_digits t 0 false
  end.

End PyStr.

(** ** Python values, exceptions and dictionaries *)

Module Py.

Inductive exn : Type :=
| AttributeError
| TypeError
| IndexError
| ValueError
| OverflowError
| TransportError.

Inductive result (A : Type) : Type :=
| Ok (a : A)
| Raise (e : exn).
Arguments Ok {A} a.
Arguments Raise {A} e.

Definition bind {A B} (m : result A) (k : A -> result B) : result B :=
  match m with
  | Ok a => k a
  | Raise e => Raise e
  end.

#[global] Instance result_ret : MRet result := fun A a => Ok a.
#[global] Instance result_bind : MBind result := fun A B k m => bind m k.

(** [try: m  except Exception: h] *)
Definition try_except {A} (m : result A) (h : exn -> result A) : result A :=
  match m with
  | Ok a => Ok a
  | Raise e => h e
  end.

(** The JSON values that the pipeline inspects. Booleans, floats and nested
    objects occur in a search result only under keys that the code never
    reads. *)
#[warnings="-register-all"]
Inductive value : Type :=
| VNone
| VStr (s : string)
| VInt (n : Z)
| VList (l : list value).

(** [d.get(k, dflt)] *)
Definition get (d : gmap string value) (k : string) (dflt : value) : value :=
  default dflt (d !! k).

(** Truth value of an object, as [if v] tests it. *)
Definition truthy (v : value) : bool :=
  match v with
  | VNone => false
  | VStr s => negb (String.eqb s "")
  | VInt n => negb (n =? 0)
  | VList l => match l with [] => false | _ => true end
  end.

(** [v.lower()]: only a [str] has the method. *)
Definition py_lower (v : value) : result string :=
  match v with
  | VStr s => Ok (PyStr.lower s)
  | _ => Raise AttributeError
  end.

(** Iteration over a value: a list yields its elements, a string its
    characters; [None] and an [int] are not iterable. *)
Definition py_iter (v : value) : result (list value) :=
  match v with
  | VList l => Ok l
  | VStr s => Ok (VStr <$> PyStr.chars s)
  | _ => Raise TypeError
  end.

(** [v >= n] against an [int] literal. *)
Definition py_ge (v : value) (n : Z) : result bool :=
  match v with
  | VInt m => Ok (n <=? m)
  | _ => Raise TypeError
  end.

(** [[f(t) for t in l]] where [f] may raise. *)
Fixpoint map_result {A B} (f : A -> result B) (l : list A) : result (list B) :=
  match l with
  | [] => Ok []
  | x :: l' =>
      bind (f x) (fun y => bind (map_result f l') (fun ys => Ok (y :: ys)))
  end.

(** [sep.join(v)]: [v] must be iterable and hold only strings. *)
Definition py_join (sep : string) (v : value) : result string :=
  bind (py_iter v) (fun items =>
  bind (map_result (fun t => match t with
                             | VStr s => Ok s
                             | _ => Raise TypeError
                             end) items) (fun ss =>
  Ok (PyStr.join sep ss))).

End Py.

Import Py.


(** ** [crawler.py]: class [GitHubCrawler] *)

Module Crawler.

(** The two attributes of a crawler that change after construction. *)
Record crawler : Type := Build_crawler {
  rate_limit_remaining : Z;
  rate_limit_reset : Z
}.

(** [GitHubCrawler.__init__] *)
Definition init : crawler :=
  {| rate_limit_remaining := 0; rate_limit_reset := 0 |}.

(** *** [filter_embedded_systems_repos] *)

(** [name = repo.get("name", "").lower()] *)
Definition repo_name (repo : gmap string value) : result string :=
  py_lower (get repo "name" (VStr "")).

(** [description = repo.get("description", "").lower()
                   if repo.get("description") else ""] *)
Definition repo_description (repo : gmap string value) : result string :=
  if truthy (get repo "description" VNone)
  then py_lower (get repo "description" (VStr ""))
  else Ok "".

(** [topics = [t.lower() for t in repo.get("topics", [])]] *)
Definition repo_topics (repo : gmap string value) : result (list string) :=
  ts ← py_iter (get repo "topics" (VList []));
  map_result py_lower ts.

(** [all_text = f"{name} {description} {' '.join(topics)}"] *)
Definition all_text (name description : string) (topics : list string) : string :=
  name +:+ " " +:+ description +:+ " " +:+ PyStr.join " " topics.

(** The exclusion loop: [should_exclude] becomes true at the first exclude
    keyword whose lower-cased form occurs in [all_text]. *)
Fixpoint should_exclude (exclude_keywords : list string) (text : string) : bool :=
  match exclude_keywords with
  | [] => false
  | keyword :: rest =>
      if PyStr.contains (PyStr.lower keyword) text then true
      else should_exclude rest text
  end.

(** The condition of the inclusion loop, lines 140-143. *)
Definition keyword_matches (name description : string) (topics : list string)
    (keyword : string) : bool :=
  let keyword_lower := PyStr.lower keyword in
  PyStr.contains keyword_lower name ||
  PyStr.contains keyword_lower description ||
  bool_decide (keyword_lower ∈ topics).

(** The inclusion loop, threading [match_count] and [matches]. *)
Fixpoint count_matches (name description : string) (topics : list string)
    (required_keywords : list string) (match_count : Z) (matches : list string)
    : Z * list string :=
  match required_keywords with
  | [] => (match_count, matches)
  | keyword :: rest =>
      if keyword_matches name description topics keyword
      then count_matches name description topics rest
             (match_count + 1) (matches ++ [keyword])
      else count_matches name description topics rest match_count matches
  end.

(** [repo_copy], with the two keys that the filter adds. *)
Definition repo_copy (repo : gmap string value) (match_count : Z)
    (matches : list string) : gmap string value :=
  <["matching_keywords" := VList (VStr <$> matches)]>
    (<["keyword_match_count" := VInt match_count]> repo).

(** The body of the loop over [repos] for one repository: [None] when the
    repository is skipped, [Some repo_copy] when it is appended. *)
Definition filter_one (repo : gmap string value)
    (required_keywords exclude_keywords : list string)
    : result (option (gmap string value)) :=
  name ← repo_name repo;
  description ← repo_description repo;
  topics ← repo_topics repo;
  if should_exclude exclude_keywords (all_text name description topics)
  then Ok None
  else
    let '(match_count, matches) :=
      count_matches name description topics required_keywords 0 [] in
    if 0 <? match_count
    then Ok (Some (repo_copy repo match_count matches))
    else Ok None.

Fixpoint filter_loop (repos : list (gmap string value))
    (required_keywords exclude_keywords : list string)
    (filtered_repos : list (gmap string value))
    : result (list (gmap string value)) :=
  match repos with
  | [] => Ok filtered_repos
  | repo :: rest =>
      o ← filter_one repo required_keywords exclude_keywords;
      filter_loop rest required_keywords exclude_keywords
        (match o with
         | Some rc => filtered_repos ++ [rc]
         | None => filtered_repos
         end)
  end.

(** The sort key [x["keyword_match_count"]]; every element of
    [filtered_repos] carries the key with an [int]. *)
Definition sort_key (x : gmap string value) : Z :=
  match x !! "keyword_match_count" with
  | Some (VInt n) => n
  | _ => 0
  end.

(** [list.sort(key=..., reverse=True)] is stable: an element goes behind
    every element of a greater or equal key that came before it. *)
Fixpoint insert_desc (x : gmap string value) (l : list (gmap string value))
    : list (gmap string value) :=
  match l with
  | [] => [x]
  | y :: l' =>
      if sort_key x <? sort_key y then y :: insert_desc x l' else x :: l
  end.

Definition sort_desc (l : list (gmap string value)) : list (gmap string value) :=
  foldr insert_desc [] l.

Definition filter_embedded_systems_repos (repos : list (gmap string value))
    (required_keywords exclude_keywords : list string)
    : result (list (gmap string value)) :=
  filtered_repos ← filter_loop repos required_keywords exclude_keywords [];
  Ok (sort_desc filtered_repos).

(** *** [_make_request] *)

(** What [_make_request] reads of a [requests] response; [json] is [None]
    when [response.json()] raises, and else tells whether the decoded
    object has the key ["items"], and with which list. *)
Record http_response : Type := Build_http_response {
  status_code : Z;
  x_ratelimit_remaining : option string;
  x_ratelimit_reset : option string;
  json : option (option (list (gmap string value)))
}.

(** The outcome of [requests.get]: it raises, or a response arrives. *)
Inductive net_event : Type :=
| NetRaise
| NetResponse (r : http_response).

(** Lines 170-174: the seconds slept before the request, for a clock that
    reads [now]. *)
Definition rate_limit_wait (c : crawler) (now : Z) : option Z :=
  if (rate_limit_remaining c <=? 1) && (0 <? rate_limit_reset c)
  then let wait_time := rate_limit_reset c - now in
       if 0 <? wait_time then Some (wait_time + 1) else None
  else None.

(** [time.sleep(secs)]: it raises [OverflowError] when [secs] is more than
    the clock type of the platform holds, [sleep_max] seconds (2^63
    nanoseconds, about 9.2e9 seconds, on the usual platforms). *)
Definition sleep (sleep_max secs : Z) : result unit :=
  if secs <=? sleep_max then Ok tt else Raise OverflowError.

(** Lines 170-174, which stand before the [try]: what [time.sleep] raises
    leaves [_make_request]. An epoch too large for a float raises the same
    error one line earlier, in the subtraction. *)
Definition wait_for_reset (sleep_max now : Z) (c : crawler) : result unit :=
  match rate_limit_wait c now with
  | Some secs => sleep sleep_max secs
  | None => Ok tt
  end.

(** [int(response.headers.get("X-RateLimit-Remaining", 0))] *)
Definition read_remaining (r : http_response) : option Z :=
  match x_ratelimit_remaining r with
  | None => Some 0
  | Some s => PyStr.int_of_str s
  end.

(** Lines 185-193: only status 200 yields the decoded body. *)
Definition response_body (r : http_response)
    : option (option (list (gmap string value))) :=
  if status_code r =? 200 then json r else None.

(** Lines 176-197. The assignments run in order inside the [try]: an [int]
    conversion that raises leaves the later attribute as it was, and the
    handler returns [None]. *)
Definition make_request (c : crawler) (ev : net_event)
    : crawler * option (option (list (gmap string value))) :=
  match ev with
  | NetRaise => (c, None)
  | NetResponse r =>
      match read_remaining r with
      | None => (c, None)
      | Some remaining =>
          let c1 := {| rate_limit_remaining := remaining;
                       rate_limit_reset := rate_limit_reset c |} in
          match x_ratelimit_reset r with
          | Some reset_time =>
              if String.eqb reset_time "" then (c1, response_body r)
              else match PyStr.int_of_str reset_time with
                   | None => (c1, None)
                   | Some t =>
                       ({| rate_limit_remaining := remaining;
                           rate_limit_reset := t |}, response_body r)
                   end
          | None => (c1, response_body r)
          end
      end
  end.

(** *** [search_repos] *)

Record search_params : Type := Build_search_params {
  q : string;
  sort : string;
  order : string;
  per_page : Z;
  page : Z
}.

(** Lines 37-39. *)
Definition search_query (query : string) (language : option string)
    (min_stars : Z) : string :=
  let base := query +:+ " stars:>=" +:+ PyStr.str_of_int min_stars in
  match language with
  | Some l => if String.eqb l "" then base else base +:+ " language:" +:+ l
  | None => base
  end.

(** The [while page <= max_pages] loop. [net] is the outcome of the GET for
    given parameters and [clock] the reading of [time.time()] when the
    request with these parameters is prepared; within one run no two
    requests carry the same parameters, so that functions of the parameters
    describe any server and any clock. [fuel] bounds the number of
    iterations. The loop has no handler: what the wait before a request
    raises leaves [search_repos], and the crawler keeps the counters that
    it had. *)
Fixpoint search_loop (fuel : nat) (net : search_params -> net_event)
    (clock : search_params -> Z) (sleep_max : Z)
    (sq srt ord : string) (max_pages : Z)
    (c : crawler) (pg : Z) (all_repos : list (gmap string value))
    : option (crawler * result (list (gmap string value))) :=
  if pg <=? max_pages then
    match fuel with
    | O => None
    | S fuel' =>
        let params := {| q := sq; sort := srt; order := ord;
                         per_page := 100; page := pg |} in
        match wait_for_reset sleep_max (clock params) c with
        | Raise e => Some (c, Raise e)
        | Ok _ =>
            let '(c', response) := make_request c (net params) in
            match response with
            | None => Some (c', Ok all_repos)
            | Some None => Some (c', Ok all_repos)
            | Some (Some items) =>
                if Z.of_nat (length items) =? 0 then Some (c', Ok all_repos)
                else
                  let all_repos' := all_repos ++ items in
                  if Z.of_nat (length items) <? 100
                  then Some (c', Ok all_repos')
                  else search_loop fuel' net clock sleep_max sq srt ord
                         max_pages c' (pg + 1) all_repos'
            end
        end
    end
  else Some (c, Ok all_repos).

Definition search_repos_fuel (fuel : nat) (net : search_params -> net_event)
    (clock : search_params -> Z) (sleep_max : Z)
    (c : crawler) (query : string) (language : option string)
    (srt ord : string) (min_stars max_pages : Z)
    : option (crawler * result (list (gmap string value))) :=
  search_loop fuel net clock sleep_max
    (search_query query language min_stars) srt ord max_pages c 1 [].

End Crawler.

(** ** [analyzer.py]: class [RepoAnalyzer] *)

Module Analyzer.

(** The attributes that [analyze_repo] and the two backends read. *)
Record analyzer : Type := Build_analyzer {
  use_ollama : bool;
  ollama_available : bool;
  gemini_available : bool
}.

(** [RepoAnalyzer.__init__]. [genai_imported] is [GEMINI_AVAILABLE],
    [configure_ok] tells whether the Gemini set-up ran without raising, and
    [tags_status] is the status of the GET to the Ollama tags endpoint
    ([None] when it raised). *)
Definition init (gemini_api_key : string) (use_ollama_flag : bool)
    (genai_imported configure_ok : bool) (tags_status : option Z) : analyzer :=
  {| use_ollama := use_ollama_flag;
     ollama_available :=
       use_ollama_flag &&
       match tags_status with
       | Some st => st =? 200
       | None => false
       end;
     gemini_available :=
       negb (String.eqb gemini_api_key "") && negb use_ollama_flag &&
       genai_imported && configure_ok |}.

Definition max_retries : nat := 3.

(** The list [['c', 'c++', 'assembly']]. *)
Definition systems_languages : list string := ["c"; "c++"; "assembly"].

(** [repo.get('keyword_match_count', 0)] *)
Definition keyword_count (repo : gmap string value) : value :=
  get repo "keyword_match_count" (VInt 0).

(** [repo.get('language', '').lower()] *)
Definition repo_language (repo : gmap string value) : result string :=
  py_lower (get repo "language" (VStr "")).

(** An [int] inside an f-string; the code formats the count only after a
    comparison with an [int] has succeeded on it. *)
Definition format_count (v : value) : string :=
  match v with
  | VInt n => PyStr.str_of_int n
  | _ => ""
  end.

(** Of the prompt f-string, the two fields whose evaluation can raise:
    the joined topics and the joined matching keywords. The other fields
    are formatted with [str], which is total. *)
Definition build_prompt (repo : gmap string value) : result (string * string) :=
  topics ← py_join ", " (get repo "topics" (VList []));
  keywords ← py_join ", " (get repo "matching_keywords" (VList []));
  Ok (topics, keywords).

(** [s.split(sep, 1)[1]] *)
Definition split1 (sep s : string) : result string :=
  match PyStr.after_first sep s with
  | Some t => Ok t
  | None => Raise IndexError
  end.

(** *** The Gemini backend *)

(** One call of [self.model.generate_content(prompt)] followed by
    [response.text]: it raises, or yields a text. *)
Inductive gemini_event : Type :=
| GeminiRaise
| GeminiText (text : string).

(** Lines 117-137: the body of the inner [try] for one attempt. *)
Definition gemini_attempt (repo : gmap string value) (ev : gemini_event)
    : result string :=
  match ev with
  | GeminiRaise => Raise TransportError
  | GeminiText text =>
      let answer_text := PyStr.strip text in
      let low := PyStr.lower answer_text in
      if PyStr.contains "yes" (PyStr.slice_to 10 low) then
        rest ← split1 "Yes" answer_text;
        Ok ("Yes - " +:+ PyStr.slice_to 100 (PyStr.strip rest))
      else if PyStr.contains "no" (PyStr.slice_to 10 low) then
        rest ← split1 "No" answer_text;
        Ok ("No - " +:+ PyStr.slice_to 100 (PyStr.strip rest))
      else if PyStr.contains "suitable" low &&
              negb (PyStr.contains "not" (PyStr.slice_to 30 low)) then
        Ok ("Yes - " +:+ PyStr.slice_to 100 answer_text)
      else if PyStr.contains "not suitable" low ||
              PyStr.contains "unsuitable" low then
        Ok ("No - " +:+ PyStr.slice_to 100 answer_text)
      else
        several ← py_ge (keyword_count repo) 2;
        if (several : bool) then Ok "Yes - Based on keywords and pre-filtering"
        else Ok "No - Insufficient evidence in repo content"
  end.

(** Lines 115-144: [for attempt in range(max_retries)]. [Ok None] is the
    loop running out, after which the function returns [None]. *)
Fixpoint gemini_retry (repo : gmap string value) (events : nat -> gemini_event)
    (attempts : list nat) : result (option string) :=
  match attempts with
  | [] => Ok None
  | attempt :: rest =>
      match gemini_attempt repo (events attempt) with
      | Ok s => Ok (Some s)
      | Raise e =>
          if (attempt <? max_retries - 1)%nat
          then gemini_retry repo events rest
          else Raise e
      end
  end.

(** Lines 146-159: the handler of the outer [try]. *)
Definition gemini_fallback (repo : gmap string value) : result string :=
  let matches := keyword_count repo in
  language ← repo_language repo;
  matched ← py_ge matches 1;
  if matched && bool_decide (language ∈ systems_languages)
  then Ok "Yes (fallback - embedded systems repo by keywords)"
  else
    several ← py_ge matches 2;
    if (several : bool) then Ok "Yes (fallback - multiple keywords matched)"
    else Ok "Yes (fallback - pre-filtered repo)".

Definition analyze_repo_with_gemini (a : analyzer) (repo : gmap string value)
    (events : nat -> gemini_event) : result (option string) :=
  if negb (gemini_available a) then Ok (Some "N/A (Gemini API not configured)")
  else
    try_except
      (_ ← build_prompt repo; gemini_retry repo events (seq 0 max_retries))
      (fun _ => s ← gemini_fallback repo; Ok (Some s)).

(** *** The Ollama backend *)

(** One [requests.post] to the generate endpoint: it raises, or a response
    arrives. [json] is [None] when [response.json()] raises, and else the
    ["response"] field of the decoded object if it has one. *)
Inductive ollama_event : Type :=
| OllamaRaise
| OllamaResponse (status_code : Z) (json : option (option string)).

(** Lines 234 and 239: the text after ["Yes -"] (or ["No -"]) when that
    occurs, and else the text after ["Yes"] (or ["No"]), stripped. *)
Definition explanation (word answer_text : string) : result string :=
  rest ← (if PyStr.contains (word +:+ " -") answer_text
          then split1 (word +:+ " -") answer_text
          else split1 word answer_text);
  Ok (PyStr.strip rest).

(** Lines 242-251 and 258-266: a "No" is kept only when neither override
    condition holds; [kept] is the explanation of the "No". *)
Definition override_no (repo : gmap string value) (kept : string)
    : result string :=
  language ← repo_language repo;
  let keyword_count := keyword_count repo in
  overridden ← (if bool_decide (language ∈ systems_languages)
                then py_ge keyword_count 1 else Ok false);
  if (overridden : bool)
  then Ok ("Yes - Contains " +:+ language +:+
           " code and matches embedded keywords")
  else
    several ← py_ge keyword_count 2;
    if (several : bool)
    then Ok ("Yes - Matches multiple embedded keywords (" +:+
             format_count keyword_count +:+ ")")
    else Ok ("No - " +:+ kept).

(** Lines 216-275: the body of the inner [try] for one attempt. [Ok None]
    is an attempt that ends without returning (a status other than 200). *)
Definition ollama_attempt (repo : gmap string value) (ev : ollama_event)
    : result (option string) :=
  match ev with
  | OllamaRaise => Raise TransportError
  | OllamaResponse status js =>
      if status =? 200 then
        match js with
        | None => Raise ValueError
        | Some field =>
            let answer_text := PyStr.strip (default "" field) in
            let low := PyStr.lower answer_text in
            if PyStr.startswith "yes" low then
              e ← explanation "Yes" answer_text;
              Ok (Some ("Yes - " +:+ PyStr.slice_to 95 e))
            else if PyStr.startswith "no" low then
              e ← explanation "No" answer_text;
              s ← override_no repo (PyStr.slice_to 95 e);
              Ok (Some s)
            else if PyStr.contains "suitable" low &&
                    negb (PyStr.contains "not" (PyStr.slice_to 30 low)) then
              Ok (Some ("Yes - " +:+ PyStr.slice_to 95 answer_text))
            else if PyStr.contains "not suitable" low ||
                    PyStr.contains "unsuitable" low then
              s ← override_no repo (PyStr.slice_to 95 answer_text);
              Ok (Some s)
            else Ok (Some "Yes - Repository appears relevant to embedded systems")
        end
      else Ok None
  end.

(** Lines 213-282: [for attempt in range(max_retries)]. After a status
    other than 200 both branches of line 272 fall through to the next
    iteration; [Ok None] is the loop running out, after which the function
    returns [None]. *)
Fixpoint ollama_retry (repo : gmap string value) (events : nat -> ollama_event)
    (attempts : list nat) : result (option string) :=
  match attempts with
  | [] => Ok None
  | attempt :: rest =>
      match ollama_attempt repo (events attempt) with
      | Ok (Some s) => Ok (Some s)
      | Ok None => ollama_retry repo events rest
      | Raise e =>
          if (attempt <? max_retries - 1)%nat
          then ollama_retry repo events rest
          else Raise e
      end
  end.

(** Lines 284-297: the handler of the outer [try]. *)
Definition ollama_fallback (repo : gmap string value) : result string :=
  let matches := keyword_count repo in
  language ← repo_language repo;
  if bool_decide (language ∈ systems_languages)
  then Ok ("Yes (fallback - contains " +:+ language +:+
           " code for embedded systems)")
  else
    matched ← py_ge matches 1;
    if (matched : bool)
    then Ok ("Yes (fallback - matches " +:+ format_count matches +:+
             " embedded keywords)")
    else Ok "Yes (fallback - pre-filtered repo)".

Definition analyze_repo_with_ollama (a : analyzer) (repo : gmap string value)
    (events : nat -> ollama_event) : result (option string) :=
  if negb (ollama_available a)
  then Ok (Some "N/A (Ollama service not available)")
  else
    try_except
      (_ ← build_prompt repo; ollama_retry repo events (seq 0 max_retries))
      (fun _ => s ← ollama_fallback repo; Ok (Some s)).

(** *** [analyze_repo] *)

(** What the two services answer, attempt by attempt. *)
Record backends : Type := Build_backends {
  gemini : nat -> gemini_event;
  ollama : nat -> ollama_event
}.

(** Lines 60-69. The returned object is a [str] or [None]. *)
Definition analyze_repo (a : analyzer) (repo : gmap string value)
    (net : backends) : result (option string) :=
  if use_ollama a && ollama_available a
  then analyze_repo_with_ollama a repo (ollama net)
  else if gemini_available a
  then analyze_repo_with_gemini a repo (gemini net)
  else
    let matches := get repo "keyword_match_count" (VInt 0) in
    several ← py_ge matches 2;
    if (several : bool) then Ok (Some "Yes (fallback - multiple keywords matched)")
    else Ok (Some "Yes (fallback - pre-filtered repo)").

(** *** Verdicts *)

(** The three outcomes that the returned text encodes by its first word. *)
Inductive verdict : Type :=
| Suitable (reason : string)
| Unsuitable (reason : string)
| Unavailable (reason : string).

(** Reading a verdict off the object that a classification call returns;
    [None] (the Python [None], or a text of no known form) is no verdict. *)
Definition verdict_of (ai_response : option string) : option verdict :=
  match ai_response with
  | None => None
  | Some s =>
      if PyStr.startswith "Yes" s then Some (Suitable (PyStr.slice_from 3 s))
      else if PyStr.startswith "No" s then Some (Unsuitable (PyStr.slice_from 2 s))
      else if PyStr.startswith "N/A" s then Some (Unavailable (PyStr.slice_from 3 s))
      else None
  end.

End Analyzer.

(** ** [utils.py]: the deduplication step of [run_crawler] *)

Module Utils.

(** The hashable values, as keys of a [dict]. *)
Inductive key : Type :=
| KNone
| KStr (s : string)
| KInt (n : Z).

#[global] Instance key_eq_dec : EqDecision key.
Proof. solve_decision. Defined.

(** Hashing a value of the model; a list is unhashable. (So is a JSON
    object, which [value] does not hold.) *)
Definition hash_key (v : value) : result key :=
  match v with
  | VNone => Ok KNone
  | VStr s => Ok (KStr s)
  | VInt n => Ok (KInt n)
  | VList _ => Raise TypeError
  end.

(** Lines 168-172. [unique_repos] is a [dict], which keeps its keys in
    insertion order: an association list with new keys added at the end. *)
Fixpoint dedup_loop (all_repos : list (gmap string value))
    (unique_repos : list (key * gmap string value))
    : result (list (key * gmap string value)) :=
  match all_repos with
  | [] => Ok unique_repos
  | repo :: rest =>
      full_name ← hash_key (get repo "full_name" VNone);
      if bool_decide (full_name ∈ unique_repos.*1)
      then dedup_loop rest unique_repos
      else dedup_loop rest (unique_repos ++ [(full_name, repo)])
  end.

(** Lines 168-174: [unique_repos_list = list(unique_repos.values())]. *)
Definition unique_repos_list (all_repos : list (gmap string value))
    : result (list (gmap string value)) :=
  unique_repos ← dedup_loop all_repos [];
  Ok (unique_repos.*2).

(** Lines 195-207: the record handed to the analyzer. A key that the
    repository lacks is present with [None], but for the three keys that
    have a default. *)
Definition repo_data (repo : gmap string value) : gmap string value :=
  list_to_map
    [("name", get repo "name" VNone);
     ("full_name", get repo "full_name" VNone);
     ("html_url", get repo "html_url" VNone);
     ("description", get repo "description" VNone);
     ("language", get repo "language" VNone);
     ("stars", get repo "stargazers_count" VNone);
     ("forks", get repo "forks_count" VNone);
     ("last_updated", get repo "updated_at" VNone);
     ("topics", get repo "topics" (VList []));
     ("keyword_match_count", get repo "keyword_match_count" (VInt 0));
     ("matching_keywords", get repo "matching_keywords" (VList []))].

(** Lines 210-229: the object stored under ["ai_response"]. *)
Definition ai_response (analyze_with_ai : bool) (a : Analyzer.analyzer)
    (data : gmap string value) (net : Analyzer.backends) : option string :=
  if analyze_with_ai then
    match Analyzer.analyze_repo a data net with
    | Ok r => r
    | Raise _ => Some "Yes (API error - defaulting to yes)"
    end
  else Some "Yes (fallback - pre-filtered repo)".

End Utils.

(** ** [models.py]: class [Repository] *)

Module Models.

(** The attributes of a [Repository] object. *)
Record repository : Type := Build_repository {
  name : value;
  full_name : value;
  html_url : value;
  description : value;
  language : value;
  stars : value;
  forks : value;
  last_updated : value;
  topics : value;
  keyword_match_count : value;
  matching_keywords : value;
  ai_response : value
}.

(** [Repository.__init__] *)
Definition init (repo_data : gmap string value) : repository :=
  {| name := get repo_data "name" (VStr "");
     full_name := get repo_data "full_name" (VStr "");
     html_url := get repo_data "html_url" (VStr "");
     description := get repo_data "description" (VStr "");
     language := get repo_data "language" (VStr "");
     stars := get repo_data "stargazers_count" (VInt 0);
     forks := get repo_data "forks_count" (VInt 0);
     last_updated := get repo_data "updated_at" (VStr "");
     topics := get repo_data "topics" (VList []);
     keyword_match_count := get repo_data "keyword_match_count" (VInt 0);
     matching_keywords := get repo_data "matching_keywords" (VList []);
     ai_response := get repo_data "ai_response" (VStr "N/A") |}.

(** [Repository.to_dict] *)
Definition to_dict (self : repository) : gmap string value :=
  list_to_map
    [("name", name self);
     ("full_name", full_name self);
     ("html_url", html_url self);
     ("description", description self);
     ("language", language self);
     ("stars", stars self);
     ("forks", forks self);
     ("last_updated", last_updated self);
     ("topics", topics self);
     ("keyword_match_count", keyword_match_count self);
     ("matching_keywords", matching_keywords self);
     ("ai_response", ai_response self)].

End Models.

(** ** [utils.py]: [save_csv] and the rest of [run_crawler] *)

Module Runner.

(** Lines 90-96. *)
Definition required_keywords : list string :=
  ["MSP430"; "TM4C123"; "MSP432"; "STM32"; "STM32F7"; "STM8";
   "ESP8266"; "Raspberry"; "Beaglebone"; "Assembly"; "RTOS";
   "Automotive"; "OS"; "WindowCE"; "Compiler"; "Bootloader";
   "embedded"; "embedded gui"; "firmware"; "driver"; "microcontroller";
   "real-time"; "baremetal"; "bare-metal"; "HAL"; "BSP"].

(** Lines 99-103. *)
Definition exclude_keywords : list string :=
  ["course"; "tutorial"; "learn"; "training"; "workshop";
   "lesson"; "lecture"; "class"; "video course"; "udemy";
   "coursera"; "edx"; "education"; "bootcamp"].

(** Lines 122-129. *)
Definition broader_queries : list string :=
  ["embedded systems"; "firmware"; "microcontroller"; "STM32"; "MSP430";
   "RTOS"].

(** One call [crawler.search_repos(query, language=..., min_stars=...,
    max_pages=...)]: [sort] and [order] keep their defaults. *)
Definition search_one (net : Crawler.search_params → Crawler.net_event)
    (clock : Crawler.search_params → Z) (sleep_max : Z)
    (c : Crawler.crawler) (query language : string) (min_stars max_pages : Z)
    : option (Crawler.crawler * result (list (gmap string value))) :=
  Crawler.search_repos_fuel (Z.to_nat max_pages) net clock sleep_max c query
    (Some language) "stars" "desc" min_stars max_pages.

(** Lines 133-165: the loop over [broader_queries]. What a search raises is
    caught by the handler of line 163, which prints and goes on with the
    next query: the lists that the earlier searches of the query added to
    [all_repos] stay, the later searches of the query are skipped. *)
Fixpoint search_all (net : Crawler.search_params → Crawler.net_event)
    (clock : Crawler.search_params → Z) (sleep_max : Z)
    (min_stars max_pages : Z) (queries : list string)
    (c : Crawler.crawler) (all_repos : list (gmap string value))
    : option (Crawler.crawler * list (gmap string value)) :=
  match queries with
  | [] => Some (c, all_repos)
  | query :: rest =>
      match search_one net clock sleep_max c query "c" min_stars max_pages with
      | None => None
      | Some (c1, Raise _) =>
          search_all net clock sleep_max min_stars max_pages rest c1 all_repos
      | Some (c1, Ok c_repos) =>
          let all_c := all_repos ++ c_repos in
          match search_one net clock sleep_max c1 query "c++" min_stars
                  max_pages with
          | None => None
          | Some (c2, Raise _) =>
              search_all net clock sleep_max min_stars max_pages rest c2 all_c
          | Some (c2, Ok cpp_repos) =>
              let all_cpp := all_c ++ cpp_repos in
              if bool_decide (query ∈ ["embedded systems"; "firmware"]) then
                match search_one net clock sleep_max c2 query "assembly"
                        min_stars max_pages with
                | None => None
                | Some (c3, Raise _) =>
                    search_all net clock sleep_max min_stars max_pages rest
                      c3 all_cpp
                | Some (c3, Ok asm_repos) =>
                    search_all net clock sleep_max min_stars max_pages rest
                      c3 (all_cpp ++ asm_repos)
                end
              else search_all net clock sleep_max min_stars max_pages rest
                     c2 all_cpp
          end
      end
  end.

Definition batch_size : Z := 3.

(** [range(start, stop, step)] for a positive [step]; [fuel] bounds the
    number of values. *)
Fixpoint range_fuel (fuel : nat) (start stop step : Z) : list Z :=
  match fuel with
  | O => []
  | S fuel' =>
      if start <? stop then start :: range_fuel fuel' (start + step) stop step
      else []
  end.

(** A range with a step of at least 1 has at most [stop - start] values. *)
Definition py_range (start stop step : Z) : list Z :=
  range_fuel (Z.to_nat (stop - start)) start stop step.

(** [l[idx]]: a negative index counts from the end, an index out of range
    raises [IndexError]. *)
Definition py_index {A} (l : list A) (idx : Z) : result A :=
  let i := if idx <? 0 then idx + Z.of_nat (length l) else idx in
  if i <? 0 then Raise IndexError
  else match l !! Z.to_nat i with
       | Some x => Ok x
       | None => Raise IndexError
       end.

(** The object under ["ai_response"] as a value. *)
Definition answer_value (r : option string) : value :=
  match r with
  | Some s => VStr s
  | None => VNone
  end.

(** Lines 195-231: the record appended for [repo], found at index [idx].
    [net idx] is what the services answer while that item is analysed. *)
Definition classified (analyze_with_ai : bool) (a : Analyzer.analyzer)
    (net : Z → Analyzer.backends) (idx : Z) (repo : gmap string value)
    : gmap string value :=
  let repo_data := Utils.repo_data repo in
  <["ai_response" :=
      answer_value (Utils.ai_response analyze_with_ai a repo_data (net idx))]>
    repo_data.

(** Lines 194-231: the body of the inner loop for one index. *)
Definition record_at (analyze_with_ai : bool) (a : Analyzer.analyzer)
    (net : Z → Analyzer.backends) (filtered_repos : list (gmap string value))
    (idx : Z) : result (gmap string value) :=
  repo ← py_index filtered_repos idx;
  Ok (classified analyze_with_ai a net idx repo).

(** Lines 193-231: [for idx in range(batch_start, batch_end)]. *)
Fixpoint batch_items (analyze_with_ai : bool) (a : Analyzer.analyzer)
    (net : Z → Analyzer.backends) (filtered_repos : list (gmap string value))
    (idxs : list Z) (output_data : list (gmap string value))
    : result (list (gmap string value)) :=
  match idxs with
  | [] => Ok output_data
  | idx :: rest =>
      r ← record_at analyze_with_ai a net filtered_repos idx;
      batch_items analyze_with_ai a net filtered_repos rest (output_data ++ [r])
  end.

(** Lines 189-247: the loop over the batches. After each batch the whole of
    [output_data] is handed to [json.dump]; [dumps] collects what was handed
    over, batch after batch. *)
Fixpoint batches (analyze_with_ai : bool) (a : Analyzer.analyzer)
    (net : Z → Analyzer.backends) (filtered_repos : list (gmap string value))
    (limit : Z) (starts : list Z)
    (output_data : list (gmap string value))
    (dumps : list (list (gmap string value)))
    : result (list (gmap string value) * list (list (gmap string value))) :=
  match starts with
  | [] => Ok (output_data, dumps)
  | batch_start :: rest =>
      let batch_end := Z.min (batch_start + batch_size) limit in
      output_data' ← batch_items analyze_with_ai a net filtered_repos
                       (py_range batch_start batch_end 1) output_data;
      batches analyze_with_ai a net filtered_repos limit rest output_data'
        (dumps ++ [output_data'])
  end.

(** Lines 185-247. *)
Definition classify_all (analyze_with_ai : bool) (a : Analyzer.analyzer)
    (net : Z → Analyzer.backends) (filtered_repos : list (gmap string value))
    (max_results : Z)
    : result (list (gmap string value) * list (list (gmap string value))) :=
  let limit := Z.min (Z.of_nat (length filtered_repos)) max_results in
  batches analyze_with_ai a net filtered_repos limit
    (py_range 0 limit batch_size) [] [].

(** Lines 167-247 and 274: [run_crawler] from the merged search results on;
    the value returned is the first component. *)
Definition run_after_search (analyze_with_ai : bool) (a : Analyzer.analyzer)
    (net : Z → Analyzer.backends) (all_repos : list (gmap string value))
    (max_results : Z)
    : result (list (gmap string value) * list (list (gmap string value))) :=
  unique_repos_list ← Utils.unique_repos_list all_repos;
  filtered_repos ← Crawler.filter_embedded_systems_repos unique_repos_list
                     required_keywords exclude_keywords;
  classify_all analyze_with_ai a net filtered_repos max_results.

(** Lines 23-33: the header row. *)
Definition csv_header : list string :=
  ["github_url"; "name"; "description"; "language"; "stars";
   "keyword_matches"; "matching_keywords"; "topics"; "ai_response"].

(** Lines 38-51: the cells of one row, as handed to the CSV writer. *)
Definition csv_row (repo : gmap string value) : result (list value) :=
  topics_str ← py_join ", " (get repo "topics" (VList []));
  matching_keywords_str ← py_join ", " (get repo "matching_keywords" (VList []));
  Ok [get repo "html_url" VNone;
      get repo "name" VNone;
      get repo "description" (VStr "");
      get repo "language" (VStr "");
      get repo "stars" (VInt 0);
      get repo "keyword_match_count" (VInt 0);
      VStr matching_keywords_str;
      VStr topics_str;
      get repo "ai_response" (VStr "N/A")].

(** Lines 36-51: the rows written, and the exception that stopped the
    writing, if one did. *)
Fixpoint save_csv_rows (repos : list (gmap string value))
    (written : list (list value)) : list (list value) * option exn :=
  match repos with
  | [] => (written, None)
  | repo :: rest =>
      match csv_row repo with
      | Ok row => save_csv_rows rest (written ++ [row])
      | Raise e => (written, Some e)
      end
  end.

Definition save_csv (repos : list (gmap string value))
    : list (list value) * option exn :=
  save_csv_rows repos [].

End Runner.

(** ** The typed view of a search result

    A search result whose display fields are well typed: the name is a
    string, the description a string or null, the topics a list of strings;
    a field that the dictionary lacks reads as empty. *)

Record item : Type := Build_item {
  item_name : string;
  item_description : string;
  item_topics : list string
}.

Definition as_str (v : value) : option string :=
  match v with
  | VStr s => Some s
  | _ => None
  end.

Definition name_of (repo : gmap string value) : option string :=
  match repo !! "name" with
  | None => Some ""
  | Some v => as_str v
  end.

Definition description_of (repo : gmap string value) : option string :=
  match repo !! "description" with
  | None => Some ""
  | Some VNone => Some ""
  | Some v => as_str v
  end.

Definition topics_of (repo : gmap string value) : option (list string) :=
  match repo !! "topics" with
  | None => Some []
  | Some (VList l) => mapM as_str l
  | Some _ => None
  end.

Definition item_of (repo : gmap string value) : option item :=
  n ← name_of repo;
  d ← description_of repo;
  ts ← topics_of repo;
  Some {| item_name := n; item_description := d; item_topics := ts |}.

(** [k] occurs in [t] when case is ignored. *)
Definition ci_substring (k t : string) : Prop :=
  ∃ pre post, PyStr.lower t = pre +:+ PyStr.lower k +:+ post.

(** [k] and [t] are equal when case is ignored. *)
Definition ci_equal (k t : string) : Prop :=
  PyStr.lower k = PyStr.lower t.

(** The text that the exclusion check searches: name, description and the
    topic tags, with single spaces between them. *)
Definition item_text (it : item) : string :=
  Crawler.all_text (item_name it) (item_description it) (item_topics it).

(** The identity key of a search result. *)
Definition full_name (repo : gmap string value) : value :=
  get repo "full_name" VNone.

(** The identity key as a dictionary key; a list, which cannot be hashed,
    reads as [KNone]. *)
Definition key_of (repo : gmap string value) : Utils.key :=
  match Utils.hash_key (full_name repo) with
  | Ok k => k
  | Raise _ => Utils.KNone
  end.

Definition hashable (repo : gmap string value) : Prop :=
  ∀ l, full_name repo ≠ VList l.

(** The entries that the deduplication loop adds for [rest] when the keys
    in [seen] are taken. *)
Fixpoint fresh (seen : list Utils.key) (rest : list (gmap string value))
    : list (Utils.key * gmap string value) :=
  match rest with
  | [] => []
  | repo :: rest' =>
      if bool_decide (key_of repo ∈ seen) then fresh seen rest'
      else (key_of repo, repo) :: fresh (seen ++ [key_of repo]) rest'
  end.




(** The parameters of the request for page [pg]. *)
Definition params_of (sq srt ord : string) (pg : Z) : Crawler.search_params :=
  {| Crawler.q := sq; Crawler.sort := srt; Crawler.order := ord;
     Crawler.per_page := 100; Crawler.page := pg |}.




(** An answer that says "No": it does not start with "yes", and it starts
    with "no" or holds "not suitable" or "unsuitable", case ignored. *)
Definition says_no (answer_text : string) : bool :=
  let low := PyStr.lower answer_text in
  negb (PyStr.startswith "yes" low) &&
  (PyStr.startswith "no" low || PyStr.contains "not suitable" low ||
   PyStr.contains "unsuitable" low).

(** The condition under which a "No" is to be overridden: a privileged
    language with at least one match, or at least two matches. *)
Definition overridden (language : string) (n : Z) : Prop :=
  (PyStr.lower language ∈ Analyzer.systems_languages ∧ 1 ≤ n) ∨ 2 ≤ n.

(** An attempt that does not return: it raises, or the status is not 200. *)
Definition attempt_fails (repo : gmap string value) (ev : Analyzer.ollama_event)
    : Prop :=
  ∀ s, Analyzer.ollama_attempt repo ev ≠ Ok (Some s).

(** The scored copy that the filter appends for [repo], if it appends
    one. *)
Definition scored (required_keywords exclude_keywords : list string)
    (repo : gmap string value) : option (gmap string value) :=
  match Crawler.filter_one repo required_keywords exclude_keywords with
  | Ok o => o
  | Raise _ => None
  end.

(** The order of the ranking: [x] may stand before [y]. *)
Definition ranks_before (x y : gmap string value) : Prop :=
  Crawler.sort_key y ≤ Crawler.sort_key x.

(** The text reads as a Suitable or as an Unsuitable verdict. *)
Definition yes_or_no (s : string) : Prop :=
  (∃ reason, Analyzer.verdict_of (Some s) = Some (Analyzer.Suitable reason)) ∨
  (∃ reason, Analyzer.verdict_of (Some s) = Some (Analyzer.Unsuitable reason)).

(** The record at index [idx] is the classified record of the item that
    the ranked list holds there. *)
Definition record_for (analyze_with_ai : bool) (a : Analyzer.analyzer)
    (net : Z → Analyzer.backends) (filtered_repos : list (gmap string value))
    (idx : Z) (r : gmap string value) : Prop :=
  ∃ repo, filtered_repos !! Z.to_nat idx = Some repo ∧
          r = Runner.classified analyze_with_ai a net idx repo.

(** [r] is the classified record of [repo], for some index. *)
Definition record_of (analyze_with_ai : bool) (a : Analyzer.analyzer)
    (net : Z → Analyzer.backends) (repo r : gmap string value) : Prop :=
  ∃ idx, r = Runner.classified analyze_with_ai a net idx repo.



(** A crawler that cannot send a request any more: a wait is due before
    every request, and none can be slept. *)
Definition stuck (clock : Crawler.search_params → Z) (sleep_max : Z)
    (c : Crawler.crawler) : Prop :=
  ∀ p, ∃ secs, Crawler.rate_limit_wait c (clock p) = Some secs ∧
               sleep_max < secs.

(** ** Sample inputs *)

Definition sample_repo : gmap string value :=
  list_to_map
    [("name", VStr "stm32-hal");
     ("full_name", VStr "org/stm32-hal");
     ("description", VStr "HAL for STM32");
     ("language", VStr "C");
     ("topics", VList [VStr "stm32"; VStr "hal"])].

Definition sample_course : gmap string value :=
  list_to_map
    [("name", VStr "rtos-firmware");
     ("full_name", VStr "org/rtos-firmware");
     ("description", VStr "STM32 RTOS firmware Tutorial");
     ("topics", VList [VStr "rtos"])].

Definition sample_item : item :=
  {| item_name := "stm32-hal";
     item_description := "HAL for STM32";
     item_topics := ["stm32"; "hal"] |}.

Definition sample_course_item : item :=
  {| item_name := "rtos-firmware";
     item_description := "STM32 RTOS firmware Tutorial";
     item_topics := ["rtos"] |}.

(** The same repository as a later query finds it. *)
Definition sample_repo_again : gmap string value :=
  <["description" := VStr "found by a later query"]> sample_repo.

(** A crawler with quota left, and a response without rate-limit headers. *)
Definition sample_crawler : Crawler.crawler :=
  {| Crawler.rate_limit_remaining := 50;
     Crawler.rate_limit_reset := 1700000000 |}.

Definition bare_response : Crawler.http_response :=
  {| Crawler.status_code := 200;
     Crawler.x_ratelimit_remaining := None;
     Crawler.x_ratelimit_reset := None;
     Crawler.json := Some (Some [sample_repo]) |}.

Definition full_response : Crawler.http_response :=
  {| Crawler.status_code := 200;
     Crawler.x_ratelimit_remaining := Some "29";
     Crawler.x_ratelimit_reset := Some "1700000060";
     Crawler.json := Some (Some [sample_repo]) |}.

(** A clock that stands still, and the longest sleep of the usual
    platforms, in whole seconds. *)
Definition sample_clock (p : Crawler.search_params) : Z := 1700000000.

Definition sample_sleep_max : Z := 9223372036.

(** A full page whose headers give no calls left and the reset epoch in
    milliseconds. *)
Definition far_reset_response : Crawler.http_response :=
  {| Crawler.status_code := 200;
     Crawler.x_ratelimit_remaining := Some "0";
     Crawler.x_ratelimit_reset := Some "1700000060000";
     Crawler.json := Some (Some (replicate 100 sample_repo)) |}.

Definition far_reset_net (p : Crawler.search_params) : Crawler.net_event :=
  Crawler.NetResponse far_reset_response.

(** A crawler that holds these counters. *)
Definition far_reset_crawler : Crawler.crawler :=
  {| Crawler.rate_limit_remaining := 0;
     Crawler.rate_limit_reset := 1700000060000 |}.

(** A server with one short page, then failures. *)
Definition sample_net (p : Crawler.search_params) : Crawler.net_event :=
  if Crawler.page p =? 1 then Crawler.NetResponse full_response
  else Crawler.NetRaise.

(** An analyzer whose Ollama service answered the health check, and one
    without any backend. *)
Definition ollama_analyzer : Analyzer.analyzer :=
  Analyzer.init "" true false false (Some 200).

Definition bare_analyzer : Analyzer.analyzer :=
  Analyzer.init "" false true true None.

(** The record that the pipeline builds for [sample_repo] once scored. *)
Definition sample_scored : gmap string value :=
  Utils.repo_data (Crawler.repo_copy sample_repo 2 ["STM32"; "HAL"]).

(** The same with a language outside the systems languages and one match. *)
Definition sample_scored_python : gmap string value :=
  <["language" := VStr "Python"]>
    (<["keyword_match_count" := VInt 1]> sample_scored).

(** An Ollama service that answers every attempt with status 500. *)
Definition ollama_down (attempt : nat) : Analyzer.ollama_event :=
  Analyzer.OllamaResponse 500 None.

(** An Ollama service that fails once and then answers "No". *)
Definition ollama_says_no (attempt : nat) : Analyzer.ollama_event :=
  match attempt with
  | O => Analyzer.OllamaRaise
  | _ => Analyzer.OllamaResponse 200 (Some (Some "No - documentation only"))
  end.

(** A Gemini service that answers every attempt with a lower-case "no". *)
Definition gemini_says_no (attempt : nat) : Analyzer.gemini_event :=
  Analyzer.GeminiText "no - documentation only".

(** An Ollama service that does the same. *)
Definition ollama_says_lower_no (attempt : nat) : Analyzer.ollama_event :=
  Analyzer.OllamaResponse 200 (Some (Some "no - documentation only")).

(** An Ollama service that answers every attempt with a sentence that
    holds "unsuitable". *)
Definition ollama_says_unsuitable (attempt : nat) : Analyzer.ollama_event :=
  Analyzer.OllamaResponse 200
    (Some (Some "This repository is unsuitable: documentation only")).

(** An analyzer with the Gemini backend. *)
Definition gemini_analyzer : Analyzer.analyzer :=
  Analyzer.init "key" false true true None.

(** The record that the pipeline builds for a scored repository without a
    language. *)
Definition sample_scored_no_language : gmap string value :=
  Utils.repo_data (Crawler.repo_copy sample_course 1 ["STM32"]).

(** Services that answer every item alike: Gemini says "no", Ollama is
    down. *)
Definition sample_backends (idx : Z) : Analyzer.backends :=
  {| Analyzer.gemini := gemini_says_no; Analyzer.ollama := ollama_down |}.

(** A search result whose identity is a JSON array. *)
Definition sample_unhashable : gmap string value :=
  <["full_name" := VList [VStr "org"; VStr "stm32-hal"]]> sample_repo.

(** The merged results of three searches. *)
Definition sample_results : list (gmap string value) :=
  [sample_repo; sample_course; sample_repo_again].

(** * Facts *)

(** ** Strings *)

Section string_facts.

Import PyStr.

Lemma startswith_app p t : startswith p (p +:+ t) = true.
Proof.
  induction p as [|a p IH]; simpl; [done|].
  by rewrite Ascii.eqb_refl.
Qed.

Lemma startswith_spec p s : startswith p s = true ↔ ∃ t, s = p +:+ t.
Proof.
  split.
  - revert s. induction p as [|a p IH]; intros s H; simpl in *.
    + by exists s.
    + destruct s as [|b s]; [done|].
      apply andb_true_iff in H as [Hab Hps].
      apply Ascii.eqb_eq in Hab as ->.
      destruct (IH _ Hps) as [t ->]. by exists t.
  - intros [t ->]. apply startswith_app.
Qed.

Lemma app_empty_inv (a b : string) : a +:+ b = "" → a = "" ∧ b = "".
Proof. destruct a; simpl; [done|discriminate]. Qed.

Lemma contains_spec k s :
  contains k s = true ↔ ∃ pre post, s = pre +:+ k +:+ post.
Proof.
  induction s as [|c s IH]; simpl.
  - rewrite orb_false_r, startswith_spec. split.
    + intros [t H]. symmetry in H. apply app_empty_inv in H as [-> ->].
      by exists "", "".
    + intros (pre & post & H). symmetry in H.
      apply app_empty_inv in H as [-> H]. apply app_empty_inv in H as [-> ->].
      by exists "".
  - rewrite orb_true_iff, startswith_spec, IH. split.
    + intros [[t ->]|(pre & post & ->)].
      * by exists "", t.
      * by exists (String c pre), post.
    + intros ([|c' pre] & post & H); simpl in H.
      * left. by exists post.
      * right. injection H as _ ->. by exists pre, post.
Qed.

Lemma contains_empty_r k : contains k "" = true ↔ k = "".
Proof.
  simpl. rewrite orb_false_r. destruct k; simpl; split; done.
Qed.

Lemma lower_app a b : lower (a +:+ b) = lower a +:+ lower b.
Proof. induction a as [|c a IH]; simpl; [done|]. by rewrite IH. Qed.

Lemma lower_join sep l : lower (join sep l) = join (lower sep) (lower <$> l).
Proof.
  unfold join. induction l as [|x l IH]; simpl; [done|].
  destruct l as [|y l]; [done|].
  rewrite !lower_app. by rewrite IH.
Qed.

Lemma lower_empty_inv s : lower s = "" → s = "".
Proof. by destruct s. Qed.

Lemma app_assoc_str (a b c : string) : (a +:+ b) +:+ c = a +:+ b +:+ c.
Proof.
  induction a as [|x a IH]; [done|].
  change (String x ((a +:+ b) +:+ c) = String x (a +:+ b +:+ c)).
  by rewrite IH.
Qed.

Lemma app_empty_r_str (a : string) : a +:+ "" = a.
Proof.
  induction a as [|x a IH]; [done|].
  change (String x (a +:+ "") = String x a). by rewrite IH.
Qed.

End string_facts.

(** ** The keyword filter *)

Section filter_facts.

Import PyStr Crawler.

Ltac unfold_bind := unfold mbind, result_bind, bind in *.

Lemma map_result_lower ts :
  map_result py_lower (VStr <$> ts) = Ok (lower <$> ts).
Proof.
  induction ts as [|t ts IH]; [done|].
  cbn [fmap list_fmap map_result py_lower bind]. fold (@fmap list _ _ _ VStr ts).
  by rewrite IH.
Qed.

Lemma mapM_as_str l ts : mapM as_str l = Some ts → l = VStr <$> ts.
Proof.
  intros H. apply mapM_Some_1 in H.
  induction H as [|v t l ts Hv _ IH]; [done|].
  destruct v; try discriminate. injection Hv as ->. by rewrite IH.
Qed.

Lemma name_of_repo_name repo n :
  name_of repo = Some n → repo_name repo = Ok (lower n).
Proof.
  unfold name_of, repo_name, get.
  destruct (repo !! "name") as [[| s | |]|]; simpl; try discriminate.
  - by intros [= ->].
  - by intros [= <-].
Qed.

Lemma description_of_repo_description repo d :
  description_of repo = Some d → repo_description repo = Ok (lower d).
Proof.
  unfold description_of, repo_description, get.
  destruct (repo !! "description") as [[| s | |]|]; simpl; try discriminate.
  - by intros [= <-].
  - intros [= ->]. destruct (String.eqb_spec d ""); simpl; [by subst|done].
  - by intros [= <-].
Qed.

Lemma topics_of_repo_topics repo ts :
  topics_of repo = Some ts → repo_topics repo = Ok (lower <$> ts).
Proof.
  unfold topics_of, repo_topics, get.
  destruct (repo !! "topics") as [[| s | | l]|]; simpl; try discriminate.
  - intros H. apply mapM_as_str in H as ->. unfold_bind. apply map_result_lower.
  - by intros [= <-].
Qed.

Lemma item_of_inv repo it :
  item_of repo = Some it →
  name_of repo = Some (item_name it) ∧
  description_of repo = Some (item_description it) ∧
  topics_of repo = Some (item_topics it).
Proof.
  unfold item_of.
  destruct (name_of repo) as [n|]; [|done].
  destruct (description_of repo) as [d|]; [|done].
  destruct (topics_of repo) as [ts|]; [|done].
  by intros [= <-].
Qed.

Lemma item_of_fields repo it :
  item_of repo = Some it →
  repo_name repo = Ok (lower (item_name it)) ∧
  repo_description repo = Ok (lower (item_description it)) ∧
  repo_topics repo = Ok (lower <$> item_topics it).
Proof.
  intros H. apply item_of_inv in H as (Hn & Hd & Ht).
  auto using name_of_repo_name, description_of_repo_description,
    topics_of_repo_topics.
Qed.

Lemma all_text_lower n d ts :
  all_text (lower n) (lower d) (lower <$> ts) = lower (all_text n d ts).
Proof.
  unfold all_text. rewrite !lower_app, lower_join. done.
Qed.

Lemma should_exclude_spec excl text :
  should_exclude excl text = true ↔
  ∃ k, k ∈ excl ∧ contains (lower k) text = true.
Proof.
  induction excl as [|k excl IH]; simpl.
  - split; [done|]. intros (k & Hk & _). by apply elem_of_nil in Hk.
  - destruct (contains (lower k) text) eqn:Hc.
    + split; [|done]. intros _. exists k. split; [left|done].
    + rewrite IH. split.
      * intros (k' & Hk' & H). exists k'. split; [by right|done].
      * intros (k' & Hk' & H). apply elem_of_cons in Hk' as [->|Hk'].
        -- congruence.
        -- by exists k'.
Qed.

Lemma count_matches_spec name d ts req mc ms :
  count_matches name d ts req mc ms =
  (mc + Z.of_nat (length (List.filter (keyword_matches name d ts) req)),
   ms ++ List.filter (keyword_matches name d ts) req).
Proof.
  revert mc ms. induction req as [|k req IH]; intros mc ms; simpl.
  - by rewrite Z.add_0_r, app_nil_r.
  - destruct (keyword_matches name d ts k); simpl.
    + rewrite IH, <- app_assoc. simpl. f_equal. lia.
    + apply IH.
Qed.

Lemma filter_one_eq repo req excl name d ts :
  repo_name repo = Ok name →
  repo_description repo = Ok d →
  repo_topics repo = Ok ts →
  filter_one repo req excl =
  Ok (if should_exclude excl (all_text name d ts) then None
      else match List.filter (keyword_matches name d ts) req with
           | [] => None
           | f => Some (repo_copy repo (Z.of_nat (length f)) f)
           end).
Proof.
  intros Hn Hd Ht. unfold filter_one. rewrite Hn, Hd, Ht. unfold_bind.
  destruct (should_exclude _ _); [done|].
  rewrite count_matches_spec. simpl.
  by destruct (List.filter _ _).
Qed.

Lemma filter_one_inv repo req excl o :
  filter_one repo req excl = Ok o →
  ∃ name d ts,
    repo_name repo = Ok name ∧ repo_description repo = Ok d ∧
    repo_topics repo = Ok ts ∧
    o = (if should_exclude excl (all_text name d ts) then None
         else match List.filter (keyword_matches name d ts) req with
              | [] => None
              | f => Some (repo_copy repo (Z.of_nat (length f)) f)
              end).
Proof.
  intros H.
  destruct (repo_name repo) as [name|e] eqn:Hn;
    [|unfold filter_one in H; rewrite Hn in H; discriminate].
  destruct (repo_description repo) as [d|e] eqn:Hd;
    [|unfold filter_one in H; rewrite Hn, Hd in H; discriminate].
  destruct (repo_topics repo) as [ts|e] eqn:Ht;
    [|unfold filter_one in H; rewrite Hn, Hd, Ht in H; discriminate].
  exists name, d, ts. repeat split; try done.
  rewrite (filter_one_eq _ _ _ _ _ _ Hn Hd Ht) in H. by injection H as <-.
Qed.

Lemma filter_loop_inv repos req excl acc out :
  filter_loop repos req excl acc = Ok out →
  ∃ news, out = acc ++ news ∧
    ∀ o, o ∈ news →
      ∃ repo, repo ∈ repos ∧ filter_one repo req excl = Ok (Some o).
Proof.
  revert acc. induction repos as [|repo repos IH]; intros acc H; simpl in H.
  - injection H as <-. exists []. split; [by rewrite app_nil_r|].
    intros o Ho. by apply elem_of_nil in Ho.
  - destruct (filter_one repo req excl) as [o1|e] eqn:H1; [|discriminate].
    unfold_bind. apply IH in H as (news & -> & Hnews).
    destruct o1 as [rc|].
    + exists (rc :: news). split; [by rewrite <- app_assoc|].
      intros o Ho. apply elem_of_cons in Ho as [->|Ho].
      * exists repo. split; [left|done].
      * destruct (Hnews o Ho) as (r & Hr & Hf). exists r. split; [by right|done].
    + exists news. split; [done|].
      intros o Ho. destruct (Hnews o Ho) as (r & Hr & Hf).
      exists r. split; [by right|done].
Qed.

Lemma filter_loop_total repos req excl acc :
  (∀ repo, repo ∈ repos → ∃ o, filter_one repo req excl = Ok o) →
  ∃ out, filter_loop repos req excl acc = Ok out.
Proof.
  revert acc. induction repos as [|repo repos IH]; intros acc H; simpl.
  - by exists acc.
  - destruct (H repo) as [o ->]; [left|]. unfold_bind.
    apply IH. intros r Hr. apply H. by right.
Qed.

Lemma insert_desc_perm x l : insert_desc x l ≡ₚ x :: l.
Proof.
  induction l as [|y l IH]; simpl; [done|].
  destruct (sort_key x <? sort_key y); [|done].
  rewrite IH. apply Permutation_swap.
Qed.

Lemma sort_desc_perm l : sort_desc l ≡ₚ l.
Proof.
  induction l as [|x l IH]; simpl; [done|].
  by rewrite insert_desc_perm, IH.
Qed.

Lemma filter_output_origin repos req excl out o :
  filter_embedded_systems_repos repos req excl = Ok out →
  o ∈ out →
  ∃ repo, repo ∈ repos ∧ filter_one repo req excl = Ok (Some o).
Proof.
  unfold filter_embedded_systems_repos. intros H Ho.
  destruct (filter_loop repos req excl []) as [fl|e] eqn:Hfl; [|discriminate].
  unfold_bind. injection H as <-.
  apply filter_loop_inv in Hfl as (news & -> & Hnews).
  apply Hnews. by rewrite sort_desc_perm in Ho.
Qed.

Lemma repo_copy_lookup repo mc ms k :
  k ≠ "matching_keywords" → k ≠ "keyword_match_count" →
  repo_copy repo mc ms !! k = repo !! k.
Proof.
  intros H1 H2. unfold repo_copy.
  by rewrite lookup_insert_ne, lookup_insert_ne.
Qed.

Lemma repo_copy_fields repo mc ms :
  repo_name (repo_copy repo mc ms) = repo_name repo ∧
  repo_description (repo_copy repo mc ms) = repo_description repo ∧
  repo_topics (repo_copy repo mc ms) = repo_topics repo.
Proof.
  unfold repo_name, repo_description, repo_topics, get.
  by rewrite !repo_copy_lookup.
Qed.

End filter_facts.

(** ** Claims about the keyword filter *)

Section filter_claims.

Import PyStr Crawler.

Lemma keyword_matches_spec n d ts k :
  keyword_matches (lower n) (lower d) (lower <$> ts) k = true ↔
  ci_substring k n ∨ ci_substring k d ∨ ∃ t, t ∈ ts ∧ ci_equal k t.
Proof.
  unfold keyword_matches, ci_substring, ci_equal.
  rewrite !orb_true_iff, !contains_spec, bool_decide_eq_true, list_elem_of_fmap.
  split.
  - intros [[H|H]|(t & Ht & Hin)]; eauto.
  - intros [H|[H|(t & Hin & Ht)]]; eauto.
Qed.

Lemma fmap_VStr_inj (l1 l2 : list string) :
  VStr <$> l1 = VStr <$> l2 → l1 = l2.
Proof.
  revert l2. induction l1 as [|x l1 IH]; intros [|y l2] H; try done.
  injection H as -> H. f_equal. by apply IH.
Qed.

Lemma elem_of_List_filter {A} (P : A → bool) l x :
  x ∈ List.filter P l ↔ x ∈ l ∧ P x = true.
Proof. rewrite !list_elem_of_In. apply filter_In. Qed.

(** C3: in the inclusion scoring, a required keyword counts as matched
    exactly when, ignoring case, it occurs in the name, or occurs in the
    description, or equals one of the topic tags; a topic is compared as a
    whole, never searched. The second part reads the same off the scored
    copy that the filter emits for an item that is not excluded. *)
Theorem C3_keyword_match_condition repo it req excl k :
  item_of repo = Some it →
  (keyword_matches (lower (item_name it)) (lower (item_description it))
     (lower <$> item_topics it) k = true ↔
   ci_substring k (item_name it) ∨ ci_substring k (item_description it) ∨
   ∃ t, t ∈ item_topics it ∧ ci_equal k t) ∧
  (should_exclude excl (lower (item_text it)) = false → k ∈ req →
   ((∃ o ms, filter_one repo req excl = Ok (Some o) ∧
             o !! "matching_keywords" = Some (VList (VStr <$> ms)) ∧
             k ∈ ms) ↔
    ci_substring k (item_name it) ∨ ci_substring k (item_description it) ∨
    ∃ t, t ∈ item_topics it ∧ ci_equal k t)).
Proof.
  intros Hit. split; [apply keyword_matches_spec|].
  intros Hex Hk. rewrite <- keyword_matches_spec.
  destruct (item_of_fields _ _ Hit) as (Hn & Hd & Ht).
  rewrite (filter_one_eq _ req excl _ _ _ Hn Hd Ht), all_text_lower.
  fold (item_text it). rewrite Hex.
  set (P := keyword_matches _ _ _). split.
  - intros (o & ms & Ho & Hms & Hin).
    destruct (List.filter P req) as [|k0 f] eqn:Hf; [discriminate|].
    injection Ho as <-. unfold repo_copy in Hms.
    rewrite lookup_insert_eq in Hms. injection Hms as Hms.
    change (VStr <$> (k0 :: f) = VStr <$> ms) in Hms.
    apply fmap_VStr_inj in Hms. subst ms.
    rewrite <- Hf in Hin. by apply elem_of_List_filter in Hin as [_ ?].
  - intros HP.
    assert (k ∈ List.filter P req) as Hin by by apply elem_of_List_filter.
    destruct (List.filter P req) as [|k0 f] eqn:Hf;
      [by apply elem_of_nil in Hin|].
    eexists _, (k0 :: f). split; [done|]. split; [|done].
    unfold repo_copy. by rewrite lookup_insert_eq.
Qed.

Lemma C3_witness :
  (∃ o ms, filter_one sample_repo ["STM32"; "HAL"; "RTOS"] ["course"] = Ok (Some o) ∧
           o !! "matching_keywords" = Some (VList (VStr <$> ms)) ∧
           "HAL" ∈ ms) ↔
  ci_substring "HAL" "stm32-hal" ∨ ci_substring "HAL" "HAL for STM32" ∨
  ∃ t, t ∈ ["stm32"; "hal"] ∧ ci_equal "HAL" t.
Proof.
  apply (proj2 (C3_keyword_match_condition sample_repo sample_item
                  ["STM32"; "HAL"; "RTOS"] ["course"] "HAL" eq_refl)).
  - vm_compute. reflexivity.
  - apply list_elem_of_In. simpl. tauto.
Defined.

(** A topic tag is compared as a whole: ["stm"] is not matched by the tag
    ["stm32"], though it is matched by the same text as a name. *)
Example topic_match_is_exact :
  keyword_matches "" "" ["stm32"] "STM" = false ∧
  keyword_matches "stm32" "" [] "STM" = true.
Proof. split; vm_compute; reflexivity. Qed.



(** An item without a matching keyword is not emitted. *)
Lemma zero_matches_dropped repo req excl name d ts :
  repo_name repo = Ok name → repo_description repo = Ok d →
  repo_topics repo = Ok ts →
  List.filter (keyword_matches name d ts) req = [] →
  filter_one repo req excl = Ok None.
Proof.
  intros Hn Hd Ht Hf. rewrite (filter_one_eq _ _ _ _ _ _ Hn Hd Ht), Hf.
  by destruct (should_exclude _ _).
Qed.

Lemma excluded_by_text repo it excl k :
  item_of repo = Some it → k ∈ excl → ci_substring k (item_text it) →
  ∃ name d ts,
    repo_name repo = Ok name ∧ repo_description repo = Ok d ∧
    repo_topics repo = Ok ts ∧
    should_exclude excl (all_text name d ts) = true.
Proof.
  intros Hit Hk Hsub.
  destruct (item_of_fields _ _ Hit) as (Hn & Hd & Ht).
  eexists _, _, _. repeat split; try done.
  rewrite all_text_lower. apply should_exclude_spec.
  exists k. split; [done|]. by apply contains_spec.
Qed.

(** C2: an item whose text (name, description and topic tags, joined by
    spaces) contains an exclude keyword, case ignored, is skipped by the
    filter whatever the required keywords are, and no scored copy of it is
    in the filter's output. *)
Theorem C2_exclusion_dominates repos repo it req excl k out :
  item_of repo = Some it →
  k ∈ excl →
  ci_substring k (item_text it) →
  filter_one repo req excl = Ok None ∧
  (filter_embedded_systems_repos repos req excl = Ok out →
   ∀ mc ms, repo_copy repo mc ms ∉ out).
Proof.
  intros Hit Hk Hsub.
  destruct (excluded_by_text _ _ _ _ Hit Hk Hsub)
    as (name & d & ts & Hn & Hd & Ht & Hex).
  split.
  - by rewrite (filter_one_eq _ _ _ _ _ _ Hn Hd Ht), Hex.
  - intros Hout mc ms Hin.
    destruct (filter_output_origin _ _ _ _ _ Hout Hin) as (r & _ & Hf).
    apply filter_one_inv in Hf as (name' & d' & ts' & Hn' & Hd' & Ht' & Heq).
    destruct (should_exclude excl (all_text name' d' ts')) eqn:Hex';
      [discriminate|].
    destruct (List.filter _ req) as [|k0 f]; [discriminate|].
    injection Heq as Heq.
    destruct (repo_copy_fields repo mc ms) as (E1 & E2 & E3).
    rewrite Heq in E1, E2, E3.
    rewrite (proj1 (repo_copy_fields _ _ _)), Hn', Hn in E1.
    rewrite (proj1 (proj2 (repo_copy_fields _ _ _))), Hd', Hd in E2.
    rewrite (proj2 (proj2 (repo_copy_fields _ _ _))), Ht', Ht in E3.
    injection E1 as ->. injection E2 as ->. injection E3 as ->.
    congruence.
Qed.

Lemma C2_witness :
  filter_one sample_course ["STM32"; "RTOS"; "firmware"] ["course"; "tutorial"] =
    Ok None ∧
  (filter_embedded_systems_repos [sample_repo; sample_course]
     ["STM32"; "RTOS"; "firmware"] ["course"; "tutorial"] =
     Ok [repo_copy sample_repo 1 ["STM32"]] →
   ∀ mc ms, repo_copy sample_course mc ms ∉ [repo_copy sample_repo 1 ["STM32"]]).
Proof.
  apply (C2_exclusion_dominates [sample_repo; sample_course] sample_course
           sample_course_item ["STM32"; "RTOS"; "firmware"]
           ["course"; "tutorial"] "tutorial").
  - vm_compute. reflexivity.
  - apply list_elem_of_In. simpl. tauto.
  - exists "rtos-firmware stm32 rtos firmware ", " rtos". vm_compute. reflexivity.
Defined.

(** The course repository is dropped although three required keywords
    match it; the other repository stays. *)
Example excluded_sample_output :
  filter_embedded_systems_repos [sample_repo; sample_course]
    ["STM32"; "RTOS"; "firmware"] ["course"; "tutorial"] =
  Ok [repo_copy sample_repo 1 ["STM32"]].
Proof. vm_compute. reflexivity. Qed.

Lemma join_elem sep t ts :
  t ∈ ts → ∃ a b, join sep ts = a +:+ t +:+ b.
Proof.
  unfold join. induction ts as [|x ts IH]; intros Hin.
  - by apply elem_of_nil in Hin.
  - apply elem_of_cons in Hin as [->|Hin].
    + destruct ts as [|y ts].
      * exists "", "". change (x = x +:+ ""). by rewrite app_empty_r_str.
      * by exists "", (sep +:+ String.concat sep (y :: ts)).
    + destruct (IH Hin) as (a & b & Hab). destruct ts as [|y ts].
      * by apply elem_of_nil in Hin.
      * exists (x +:+ sep +:+ a), b.
        change (x +:+ sep +:+ String.concat sep (y :: ts) =
                (x +:+ sep +:+ a) +:+ t +:+ b).
        by rewrite Hab, !app_assoc_str.
Qed.

(** An exclude keyword that occurs in one of the three fields occurs in
    the text. *)
Lemma ci_substring_field_text it k :
  ci_substring k (item_name it) ∨ ci_substring k (item_description it) ∨
  (∃ t, t ∈ item_topics it ∧ ci_substring k t) →
  ci_substring k (item_text it).
Proof.
  unfold ci_substring, item_text, all_text.
  rewrite !lower_app, lower_join.
  intros [(a & b & ->)|[(a & b & ->)|(t & Hin & a & b & Ht)]].
  - exists a. eexists. by rewrite !app_assoc_str.
  - exists (lower (item_name it) +:+ lower " " +:+ a). eexists.
    by rewrite !app_assoc_str.
  - apply (list_elem_of_fmap_2 lower) in Hin.
    destruct (join_elem (lower " ") _ _ Hin) as (x & y & ->).
    exists (lower (item_name it) +:+ lower " " +:+
            lower (item_description it) +:+ lower " " +:+ x +:+ a).
    exists (b +:+ y). by rewrite Ht, !app_assoc_str.
Qed.

Lemma item_of_is_Some repo :
  (repo !! "name" = None ∨ ∃ s, repo !! "name" = Some (VStr s)) →
  (repo !! "description" = None ∨ repo !! "description" = Some VNone ∨
   ∃ s, repo !! "description" = Some (VStr s)) →
  (repo !! "topics" = None ∨
   ∃ ts, repo !! "topics" = Some (VList (VStr <$> ts))) →
  is_Some (item_of repo).
Proof.
  intros Hn Hd Ht. unfold item_of, name_of, description_of, topics_of.
  destruct Hn as [->|[n ->]]; destruct Hd as [->|[->|[d ->]]];
    destruct Ht as [->|[ts ->]]; simpl;
    rewrite ?(mapM_fmap_Some as_str VStr ts) by done; by eexists.
Qed.

(** C10: the filter reads a missing name as the empty string, a missing or
    null description as the empty string and missing topics as the empty
    list; on items whose three fields are each missing (or null, for the
    description) or of the expected type it returns without raising; and
    an empty field adds no match: with empty topics a keyword matches as
    the name and the description decide, and with an empty name (or
    description) a keyword that is not empty matches as the other two
    fields decide. *)
Theorem C10_filter_total_on_missing_fields :
  (∀ repo, repo !! "name" = None → repo_name repo = Ok "") ∧
  (∀ repo, repo !! "description" = None ∨ repo !! "description" = Some VNone →
     repo_description repo = Ok "") ∧
  (∀ repo, repo !! "topics" = None → repo_topics repo = Ok []) ∧
  (∀ repo req excl,
     (repo !! "name" = None ∨ ∃ s, repo !! "name" = Some (VStr s)) →
     (repo !! "description" = None ∨ repo !! "description" = Some VNone ∨
      ∃ s, repo !! "description" = Some (VStr s)) →
     (repo !! "topics" = None ∨
      ∃ ts, repo !! "topics" = Some (VList (VStr <$> ts))) →
     ∃ o, filter_one repo req excl = Ok o) ∧
  (∀ repos req excl,
     (∀ repo, repo ∈ repos → is_Some (item_of repo)) →
     ∃ out, filter_embedded_systems_repos repos req excl = Ok out) ∧
  (∀ name d k,
     keyword_matches name d [] k =
     contains (lower k) name || contains (lower k) d) ∧
  (∀ d ts k, k ≠ "" →
     keyword_matches "" d ts k =
     contains (lower k) d || bool_decide (lower k ∈ ts)) ∧
  (∀ name ts k, k ≠ "" →
     keyword_matches name "" ts k =
     contains (lower k) name || bool_decide (lower k ∈ ts)).
Proof.
  assert (∀ repo req excl, is_Some (item_of repo) →
            ∃ o, filter_one repo req excl = Ok o) as Htotal.
  { intros repo req excl [it Hit].
    destruct (item_of_fields _ _ Hit) as (Hn & Hd & Ht).
    rewrite (filter_one_eq _ _ _ _ _ _ Hn Hd Ht). by eexists. }
  repeat split.
  - intros repo H. unfold repo_name, get. by rewrite H.
  - intros repo [H|H]; unfold repo_description, get; by rewrite H.
  - intros repo H. unfold repo_topics, get. by rewrite H.
  - intros repo req excl Hn Hd Ht. apply Htotal. by apply item_of_is_Some.
  - intros repos req excl Hall. unfold filter_embedded_systems_repos.
    destruct (filter_loop_total repos req excl []) as [out ->]; [|by eexists].
    intros repo Hin. by apply Htotal, Hall.
  - intros name d k. unfold keyword_matches.
    rewrite bool_decide_eq_false_2; [by rewrite orb_false_r|].
    apply not_elem_of_nil.
  - intros d ts k Hk. unfold keyword_matches.
    destruct (contains (lower k) "") eqn:Hc; [|done].
    apply contains_empty_r, lower_empty_inv in Hc. done.
  - intros name ts k Hk. unfold keyword_matches.
    destruct (contains (lower k) "") eqn:Hc; [|by rewrite orb_false_r].
    apply contains_empty_r, lower_empty_inv in Hc. done.
Qed.

Lemma C10_witness : ∃ o, filter_one ∅ ["STM32"; "HAL"] ["course"] = Ok o.
Proof.
  apply (proj1 (proj2 (proj2 (proj2 C10_filter_total_on_missing_fields)))).
  - by left.
  - by left.
  - by left.
Defined.

(** The empty dictionary, which lacks all three fields, is scored and
    dropped for want of a match. *)
Example missing_fields_dropped :
  filter_embedded_systems_repos [∅] ["STM32"; "HAL"] ["course"] = Ok [].
Proof. vm_compute. reflexivity. Qed.

End filter_claims.

(** ** Deduplication *)

Section dedup_facts.

Import Utils.

Ltac unfold_bind := unfold mbind, result_bind, bind in *.

Lemma hash_key_key_of repo :
  hashable repo → hash_key (full_name repo) = Ok (key_of repo).
Proof.
  unfold hashable, key_of. intros H.
  destruct (full_name repo) as [| s | n | l]; try done.
  by destruct (H l).
Qed.

Lemma key_of_inj r1 r2 :
  hashable r1 → hashable r2 → key_of r1 = key_of r2 →
  full_name r1 = full_name r2.
Proof.
  unfold hashable, key_of. intros H1 H2.
  destruct (full_name r1) as [| s1 | n1 | l1], (full_name r2) as [| s2 | n2 | l2];
    simpl; try done; try (by destruct (H1 l1)); try (by destruct (H2 l2)).
  - by intros [= ->].
  - by intros [= ->].
Qed.

Lemma dedup_loop_fresh rest acc :
  Forall hashable rest →
  dedup_loop rest acc = Ok (acc ++ fresh (acc.*1) rest).
Proof.
  intros H. revert acc.
  induction H as [|repo rest Hh _ IH]; intros acc; simpl.
  - by rewrite app_nil_r.
  - fold (full_name repo). rewrite (hash_key_key_of _ Hh). unfold_bind.
    destruct (bool_decide (key_of repo ∈ acc.*1)); [apply IH|].
    rewrite IH, fmap_app, <- app_assoc. done.
Qed.

Lemma fresh_keys seen rest :
  (fresh seen rest).*1 = key_of <$> (fresh seen rest).*2.
Proof.
  revert seen. induction rest as [|repo rest IH]; intros seen; simpl; [done|].
  destruct (bool_decide _); simpl; by rewrite ?IH.
Qed.

Lemma fresh_sublist seen rest : sublist (fresh seen rest).*2 rest.
Proof.
  revert seen. induction rest as [|repo rest IH]; intros seen; simpl.
  - constructor.
  - destruct (bool_decide _); simpl.
    + by apply sublist_cons.
    + by apply sublist_skip.
Qed.

Lemma fresh_new seen rest k : k ∈ (fresh seen rest).*1 → k ∉ seen.
Proof.
  revert seen. induction rest as [|repo rest IH]; intros seen; simpl.
  - intros H. by apply elem_of_nil in H.
  - destruct (bool_decide (key_of repo ∈ seen)) eqn:Hd; simpl.
    + apply IH.
    + apply bool_decide_eq_false in Hd.
      intros [->|H]%elem_of_cons; [done|].
      apply IH in H. intros Hin. apply H, elem_of_app. by left.
Qed.

Lemma fresh_NoDup seen rest : NoDup (fresh seen rest).*1.
Proof.
  revert seen. induction rest as [|repo rest IH]; intros seen; simpl.
  - constructor.
  - destruct (bool_decide (key_of repo ∈ seen)); simpl; [apply IH|].
    constructor; [|apply IH].
    intros H. apply fresh_new in H. apply H, elem_of_app. right. left.
Qed.

Lemma fresh_cover seen rest r :
  r ∈ rest → key_of r ∈ seen ∨ key_of r ∈ (fresh seen rest).*1.
Proof.
  revert seen. induction rest as [|repo rest IH]; intros seen Hin.
  - by apply elem_of_nil in Hin.
  - simpl. destruct (bool_decide (key_of repo ∈ seen)) eqn:Hd.
    + apply bool_decide_eq_true in Hd.
      apply elem_of_cons in Hin as [->|Hin]; [by left|by apply IH].
    + simpl. apply elem_of_cons in Hin as [->|Hin]; [right; left|].
      destruct (IH (seen ++ [key_of repo]) Hin) as [H|H]; [|right; by right].
      apply elem_of_app in H as [H|H]; [by left|].
      apply list_elem_of_singleton in H as ->. right. left.
Qed.

Lemma fresh_first seen rest r :
  r ∈ (fresh seen rest).*2 →
  ∃ pre post, rest = pre ++ r :: post ∧ ∀ x, x ∈ pre → key_of x ≠ key_of r.
Proof.
  revert seen. induction rest as [|repo rest IH]; intros seen; simpl.
  - intros H. by apply elem_of_nil in H.
  - destruct (bool_decide (key_of repo ∈ seen)) eqn:Hd; simpl.
    + apply bool_decide_eq_true in Hd. intros Hin.
      assert (key_of r ∉ seen) as Hr.
      { apply (fresh_new seen rest). rewrite fresh_keys.
        by apply list_elem_of_fmap_2. }
      destruct (IH _ Hin) as (pre & post & -> & Hpre).
      exists (repo :: pre), post. split; [done|].
      intros x [->|Hx]%elem_of_cons; [congruence|by apply Hpre].
    + intros [->|Hin]%elem_of_cons.
      * exists [], rest. split; [done|]. intros x Hx. by apply elem_of_nil in Hx.
      * assert (key_of r ∉ seen ++ [key_of repo]) as Hr.
        { apply (fresh_new _ rest). rewrite fresh_keys.
          by apply list_elem_of_fmap_2. }
        destruct (IH _ Hin) as (pre & post & -> & Hpre).
        exists (repo :: pre), post. split; [done|].
        intros x [->|Hx]%elem_of_cons; [|by apply Hpre].
        intros E. apply Hr, elem_of_app. right. rewrite E. left.
Qed.

Lemma fresh_all_seen seen rest :
  (∀ r, r ∈ rest → key_of r ∈ seen) → fresh seen rest = [].
Proof.
  induction rest as [|repo rest IH]; intros H; simpl; [done|].
  rewrite bool_decide_eq_true_2 by (apply H; left).
  apply IH. intros r Hr. apply H. by right.
Qed.

Lemma fresh_app seen l1 l2 :
  fresh seen (l1 ++ l2) =
  fresh seen l1 ++ fresh (seen ++ (fresh seen l1).*1) l2.
Proof.
  revert seen. induction l1 as [|repo l1 IH]; intros seen; simpl.
  - by rewrite app_nil_r.
  - destruct (bool_decide (key_of repo ∈ seen)); simpl; [apply IH|].
    rewrite IH, <- app_assoc. done.
Qed.

(** C9: deduplication returns, in arrival order, exactly the first item of
    every identity key: the output is a sub-list of the input with pairwise
    distinct keys, every key of the input is kept, every kept item is
    preceded in the input by no item of its key, and feeding the same
    items twice gives the same output. *)
Theorem C9_dedup_first_occurrence all_repos :
  Forall hashable all_repos →
  ∃ out,
    unique_repos_list all_repos = Ok out ∧
    sublist out all_repos ∧
    NoDup (full_name <$> out) ∧
    (∀ r, r ∈ all_repos → ∃ r', r' ∈ out ∧ full_name r' = full_name r) ∧
    (∀ r, r ∈ out →
       ∃ pre post, all_repos = pre ++ r :: post ∧
                   ∀ x, x ∈ pre → full_name x ≠ full_name r) ∧
    unique_repos_list (all_repos ++ all_repos) = Ok out.
Proof.
  intros Hh. exists (fresh [] all_repos).*2.
  assert (Forall hashable (all_repos ++ all_repos)) as Hh2
    by by apply Forall_app.
  unfold unique_repos_list.
  rewrite (dedup_loop_fresh _ [] Hh), (dedup_loop_fresh _ [] Hh2).
  unfold_bind. simpl.
  pose proof (fresh_sublist [] all_repos) as Hsub.
  repeat split.
  - done.
  - pose proof (fresh_NoDup [] all_repos) as Hnd.
    rewrite fresh_keys in Hnd.
    assert (key_of <$> (fresh [] all_repos).*2 =
            (λ v, match hash_key v with Ok k => k | Raise _ => KNone end) <$>
              (full_name <$> (fresh [] all_repos).*2)) as E.
    { generalize (fresh [] all_repos).*2. intros l.
      induction l as [|x l IH]; [done|].
      rewrite !fmap_cons, <- IH. done. }
    rewrite E in Hnd. by apply NoDup_fmap_1 in Hnd.
  - intros r Hr.
    destruct (fresh_cover [] all_repos r Hr) as [H|H];
      [by apply elem_of_nil in H|].
    rewrite fresh_keys in H.
    apply list_elem_of_fmap in H as (r' & Hk & Hr').
    exists r'. split; [done|].
    rewrite Forall_forall in Hh. symmetry.
    apply key_of_inj; [by apply Hh| |done].
    apply Hh. by apply (elem_of_sublist _ _ _ Hr' Hsub).
  - intros r Hr.
    destruct (fresh_first [] all_repos r Hr) as (pre & post & E & Hpre).
    exists pre, post. split; [done|].
    intros x Hx Hfn. apply (Hpre x Hx). unfold key_of. by rewrite Hfn.
  - rewrite fresh_app, app_nil_l.
    rewrite (fresh_all_seen (fresh [] all_repos).*1 all_repos);
      [by rewrite app_nil_r|].
    intros r Hr.
    destruct (fresh_cover [] all_repos r Hr) as [H|H];
      [by apply elem_of_nil in H|done].
Qed.

End dedup_facts.

Lemma C9_witness :
  ∃ out,
    Utils.unique_repos_list [sample_repo; sample_course; sample_repo_again] =
      Ok out ∧
    sublist out [sample_repo; sample_course; sample_repo_again] ∧
    NoDup (full_name <$> out) ∧
    (∀ r, r ∈ [sample_repo; sample_course; sample_repo_again] →
       ∃ r', r' ∈ out ∧ full_name r' = full_name r) ∧
    (∀ r, r ∈ out →
       ∃ pre post,
         [sample_repo; sample_course; sample_repo_again] = pre ++ r :: post ∧
         ∀ x, x ∈ pre → full_name x ≠ full_name r) ∧
    Utils.unique_repos_list
      ([sample_repo; sample_course; sample_repo_again] ++
       [sample_repo; sample_course; sample_repo_again]) = Ok out.
Proof.
  apply (C9_dedup_first_occurrence
           [sample_repo; sample_course; sample_repo_again]).
  repeat constructor; intros l H; vm_compute in H; discriminate.
Defined.

(** Two finds of one identity with different descriptions: the first one
    stays, with its description. *)
Example dedup_keeps_first_description :
  Utils.unique_repos_list [sample_repo; sample_course; sample_repo_again] =
    Ok [sample_repo; sample_course] ∧
  sample_repo !! "description" = Some (VStr "HAL for STM32").
Proof. split; vm_compute; reflexivity. Qed.

(** ** The rate limiter *)

Section rate_limit_facts.

Import Crawler.


(** C7, as the claim states it, fails: with no header for the remaining
    count the stored count does not stay at 50, it becomes 0. *)
Lemma C7_counterexample :
  x_ratelimit_remaining bare_response = None ∧
  rate_limit_remaining sample_crawler = 50 ∧
  rate_limit_remaining
    (make_request sample_crawler (NetResponse bare_response)).1 = 0.
Proof. repeat split. Qed.

(** C7, amended: after a response the remaining count is the value of its
    header, and 0 when the header is absent; the reset epoch is the value
    of its header when that is present and not empty, and is left
    unchanged when the header is absent or empty. A request that raises
    changes neither. *)
Theorem C7_after_call_update c r :
  (x_ratelimit_remaining r = None →
   rate_limit_remaining (make_request c (NetResponse r)).1 = 0) ∧
  (∀ s n, x_ratelimit_remaining r = Some s → PyStr.int_of_str s = Some n →
   rate_limit_remaining (make_request c (NetResponse r)).1 = n) ∧
  (x_ratelimit_reset r = None ∨ x_ratelimit_reset r = Some "" →
   rate_limit_reset (make_request c (NetResponse r)).1 = rate_limit_reset c) ∧
  (∀ s t, is_Some (read_remaining r) → x_ratelimit_reset r = Some s →
   s ≠ "" → PyStr.int_of_str s = Some t →
   rate_limit_reset (make_request c (NetResponse r)).1 = t) ∧
  make_request c NetRaise = (c, None).
Proof.
  repeat split.
  - intros H. simpl. unfold read_remaining. rewrite H.
    destruct (x_ratelimit_reset r) as [s|]; [|done].
    destruct (String.eqb s ""); [done|]. by destruct (PyStr.int_of_str s).
  - intros s n H Hn. simpl. unfold read_remaining. rewrite H, Hn.
    destruct (x_ratelimit_reset r) as [s'|]; [|done].
    destruct (String.eqb s' ""); [done|]. by destruct (PyStr.int_of_str s').
  - intros H. simpl. destruct (read_remaining r); [|done].
    by destruct H as [->| ->].
  - intros s t [n Hn] Hs Hne Ht. simpl. rewrite Hn, Hs.
    destruct (String.eqb_spec s ""); [done|]. by rewrite Ht.
Qed.

Lemma C7_witness :
  rate_limit_remaining
    (make_request sample_crawler (NetResponse full_response)).1 = 29 ∧
  rate_limit_reset
    (make_request sample_crawler (NetResponse full_response)).1 = 1700000060 ∧
  rate_limit_reset
    (make_request sample_crawler (NetResponse bare_response)).1 =
    rate_limit_reset sample_crawler.
Proof.
  split; [|split].
  - apply (proj1 (proj2 (C7_after_call_update sample_crawler full_response))
             "29"); vm_compute; reflexivity.
  - apply (proj1 (proj2 (proj2 (proj2
             (C7_after_call_update sample_crawler full_response))))
             "1700000060").
    + by eexists.
    + reflexivity.
    + discriminate.
    + vm_compute. reflexivity.
  - apply (proj1 (proj2 (proj2
             (C7_after_call_update sample_crawler bare_response)))).
    by left.
Defined.

End rate_limit_facts.

(** ** Paginated search *)

Section search_facts.

Import PyStr Crawler.

Context (net : search_params → net_event) (clock : search_params → Z)
        (sleep_max : Z) (sq srt ord : string) (max_pages : Z).







(** A wait that is due and cannot be slept ends the loop with the error:
    the pages gathered so far are not returned, the counters stay. *)
Lemma search_loop_wait_raises fuel c pg acc secs :
  pg ≤ max_pages →
  rate_limit_wait c (clock (params_of sq srt ord pg)) = Some secs →
  sleep_max < secs →
  search_loop (S fuel) net clock sleep_max sq srt ord max_pages c pg acc =
  Some (c, Raise OverflowError).
Proof.
  intros Hpg Hdue Hfar. simpl.
  destruct (Z.leb_spec pg max_pages); [|lia].
  fold (params_of sq srt ord pg). unfold wait_for_reset. rewrite Hdue.
  unfold sleep. by destruct (Z.leb_spec secs sleep_max); [lia|].
Qed.

End search_facts.



(** One short page and then a transport failure: the page is returned. *)
Example search_partial_results :
  Crawler.search_repos_fuel 5 sample_net sample_clock sample_sleep_max
    Crawler.init "firmware" (Some "c") "stars" "desc" 10 5 =
  Some ({| Crawler.rate_limit_remaining := 29;
           Crawler.rate_limit_reset := 1700000060 |}, Ok [sample_repo]).
Proof. vm_compute. reflexivity. Qed.

(** ** Classification *)

Section analyzer_facts.

Import PyStr Analyzer.

Ltac unfold_bind := unfold mbind, result_bind, bind in *.

(** C4: without a usable backend [analyze_repo] returns, for an item whose
    match count is an integer, the text of a Suitable verdict: the
    "multiple keywords matched" one from two matches up, the "pre-filtered
    repo" one below; it does not raise and the verdict is never
    Unsuitable. *)
Theorem C4_no_backend_always_suitable a repo net n :
  use_ollama a && ollama_available a = false →
  gemini_available a = false →
  keyword_count repo = VInt n →
  analyze_repo a repo net =
    Ok (Some (if 2 <=? n then "Yes (fallback - multiple keywords matched)"
              else "Yes (fallback - pre-filtered repo)")) ∧
  verdict_of (Some (if 2 <=? n then "Yes (fallback - multiple keywords matched)"
                    else "Yes (fallback - pre-filtered repo)")) =
    Some (Suitable (if 2 <=? n then " (fallback - multiple keywords matched)"
                    else " (fallback - pre-filtered repo)")).
Proof.
  intros Ho Hg Hn. unfold analyze_repo. rewrite Ho, Hg.
  unfold keyword_count in Hn. rewrite Hn. simpl. unfold_bind.
  by destruct (2 <=? n).
Qed.

Lemma C4_witness :
  analyze_repo bare_analyzer sample_scored
    {| gemini := λ _, GeminiRaise; ollama := ollama_down |} =
    Ok (Some "Yes (fallback - multiple keywords matched)") ∧
  verdict_of (Some "Yes (fallback - multiple keywords matched)") =
    Some (Suitable " (fallback - multiple keywords matched)").
Proof.
  apply (C4_no_backend_always_suitable bare_analyzer sample_scored
           {| gemini := λ _, GeminiRaise; ollama := ollama_down |} 2);
    vm_compute; reflexivity.
Defined.

(** The record built for an item of the filter's output carries its match
    count as an integer. *)
Lemma repo_data_keyword_count repo mc ms :
  keyword_count (Utils.repo_data (Crawler.repo_copy repo mc ms)) = VInt mc.
Proof.
  unfold keyword_count, Utils.repo_data, get. simpl.
  rewrite !lookup_insert_ne by done. rewrite lookup_insert_eq. simpl.
  unfold Crawler.repo_copy.
  rewrite lookup_insert_ne by done. by rewrite lookup_insert_eq.
Qed.

Lemma override_no_typed repo language n kept :
  get repo "language" (VStr "") = VStr language →
  keyword_count repo = VInt n →
  override_no repo kept =
  Ok (if bool_decide (lower language ∈ systems_languages) && (1 <=? n)
      then "Yes - Contains " +:+ lower language +:+
           " code and matches embedded keywords"
      else if 2 <=? n
      then "Yes - Matches multiple embedded keywords (" +:+ str_of_int n +:+ ")"
      else "No - " +:+ kept).
Proof.
  intros Hl Hn. unfold override_no, repo_language. rewrite Hl, Hn. simpl.
  unfold_bind.
  destruct (bool_decide (lower language ∈ systems_languages)); simpl.
  - destruct (1 <=? n); [done|]. by destruct (2 <=? n).
  - by destruct (2 <=? n).
Qed.

Lemma after_first_none_contains k s :
  after_first k s = None → contains k s = false.
Proof.
  induction s as [|c s IH]; simpl.
  - destruct (startswith k ""); [discriminate|done].
  - destruct (startswith k (String c s)); [discriminate|]. apply IH.
Qed.

Lemma contains_longer k1 k2 s :
  contains (k1 +:+ k2) s = true → contains k1 s = true.
Proof.
  rewrite !contains_spec. intros (pre & post & ->).
  exists pre, (k2 +:+ post). by rewrite app_assoc_str.
Qed.

Lemma lower_no_raises repo field :
  startswith "no" (lower (strip (default "" field))) = true →
  after_first "No" (strip (default "" field)) = None →
  ollama_attempt repo (OllamaResponse 200 (Some field)) = Raise IndexError.
Proof.
  intros Hno Hcap. unfold ollama_attempt. rewrite Z.eqb_refl.
  cbv beta iota zeta.
  set (answer_text := strip (default "" field)) in *.
  assert (startswith "yes" (lower answer_text) = false) as ->.
  { destruct (lower answer_text) as [|c l]; [done|].
    change (Ascii.eqb "n" c && startswith "o" l = true) in Hno.
    apply andb_true_iff in Hno as [Hc _].
    apply Ascii.eqb_eq in Hc as <-. reflexivity. }
  rewrite Hno. unfold explanation.
  assert (contains ("No" +:+ " -") answer_text = false) as ->.
  { apply after_first_none_contains in Hcap.
    destruct (contains ("No" +:+ " -") answer_text) eqn:Hc; [|done].
    apply contains_longer in Hc. congruence. }
  unfold split1. by rewrite Hcap.
Qed.

Lemma ollama_retry_reaches repo events i s :
  (i < max_retries)%nat →
  (∀ j, (j < i)%nat → attempt_fails repo (events j)) →
  ollama_attempt repo (events i) = Ok (Some s) →
  ollama_retry repo events (seq 0 max_retries) = Ok (Some s).
Proof.
  unfold max_retries, attempt_fails. intros Hi Hfail Hret.
  assert (∀ j, (j < i)%nat →
            ollama_attempt repo (events j) = Ok None ∨
            ∃ e, ollama_attempt repo (events j) = Raise e) as Hf.
  { intros j Hj. specialize (Hfail j Hj).
    destruct (ollama_attempt repo (events j)) as [[s'|]|e]; eauto.
    by destruct (Hfail s'). }
  destruct i as [|[|[|i]]]; [| | |lia]; simpl.
  - by rewrite Hret.
  - destruct (Hf 0%nat) as [->|[e ->]]; [lia| |]; by rewrite Hret.
  - destruct (Hf 0%nat) as [->|[e ->]]; [lia| |];
      (destruct (Hf 1%nat) as [->|[e' ->]]; [lia| |]); by rewrite Hret.
Qed.

Lemma ollama_first_return a repo events i p r :
  ollama_available a = true →
  build_prompt repo = Ok p →
  (i < max_retries)%nat →
  (∀ j, (j < i)%nat → attempt_fails repo (events j)) →
  ollama_attempt repo (events i) = Ok (Some r) →
  analyze_repo_with_ollama a repo events = Ok (Some r).
Proof.
  intros Ha Hp Hi Hfail Hret.
  unfold analyze_repo_with_ollama. rewrite Ha, Hp. cbn [negb]. unfold_bind.
  cbv beta iota.
  by rewrite (ollama_retry_reaches repo events i _ Hi Hfail Hret).
Qed.

Lemma override_verdicts language n kept :
  let r := if bool_decide (lower language ∈ systems_languages) && (1 <=? n)
           then "Yes - Contains " +:+ lower language +:+
                " code and matches embedded keywords"
           else if 2 <=? n
           then "Yes - Matches multiple embedded keywords (" +:+
                str_of_int n +:+ ")"
           else "No - " +:+ kept in
  (overridden language n →
   ∃ reason, verdict_of (Some r) = Some (Suitable reason)) ∧
  (¬ overridden language n →
   verdict_of (Some r) = Some (Unsuitable (" - " +:+ kept))).
Proof.
  unfold overridden. cbv zeta.
  destruct (bool_decide (lower language ∈ systems_languages)) eqn:Hlang;
    [apply bool_decide_eq_true in Hlang|apply bool_decide_eq_false in Hlang];
    destruct (Z.leb_spec 1 n); destruct (Z.leb_spec 2 n); cbn [andb];
    split; intros Hcond;
    first [ by eexists
          | reflexivity
          | exfalso; destruct Hcond as [[? ?]|?]; (contradiction || lia)
          | exfalso; apply Hcond;
            first [right; lia | left; split; [assumption|lia]] ].
Qed.

Lemma contains_suffix k1 k2 s :
  contains (k1 +:+ k2) s = true → contains k2 s = true.
Proof.
  rewrite !contains_spec. intros (pre & post & ->).
  exists (pre +:+ k1), post. by rewrite !app_assoc_str.
Qed.

Lemma says_no_inv answer_text :
  says_no answer_text = true →
  startswith "yes" (lower answer_text) = false ∧
  (startswith "no" (lower answer_text) = true ∨
   contains "suitable" (lower answer_text) = true ∧
   (contains "not suitable" (lower answer_text) ||
    contains "unsuitable" (lower answer_text)) = true).
Proof.
  unfold says_no. cbv zeta. intros [Hyes Hno]%andb_true_iff.
  apply negb_true_iff in Hyes. split; [done|].
  destruct (startswith "no" (lower answer_text)); [by left|]. right.
  cbn [orb] in Hno. split; [|done].
  apply orb_true_iff in Hno as [H|H].
  - by apply (contains_suffix "not " "suitable").
  - by apply (contains_suffix "un" "suitable").
Qed.

(** C6, where the code departs from it. For an item with a string as
    language and an integer as count, and an answer that says "No", read at
    the first attempt that returns: where the code cuts an explanation out
    of an answer that starts with "no", or finds "not" among the first 30
    characters of one that does not, a privileged language with at least
    one match, or at least two matches, turn the "No" into a "Yes", and in
    every other case the "No" stands with that explanation. But an answer
    that does not start with "no" and has no "not" among its first 30
    characters is returned as a "Yes" by the test of line 254, whatever the
    language and the count, although it holds "unsuitable" or "not
    suitable"; and an answer that starts with "no" without a capitalised
    "No" raises [IndexError] at line 239 and yields no verdict of its
    own. *)
Theorem C6_no_answer_not_always_kept a repo events i field language n p :
  ollama_available a = true →
  build_prompt repo = Ok p →
  get repo "language" (VStr "") = VStr language →
  keyword_count repo = VInt n →
  (i < max_retries)%nat →
  (∀ j, (j < i)%nat → attempt_fails repo (events j)) →
  events i = OllamaResponse 200 (Some field) →
  says_no (strip (default "" field)) = true →
  let answer_text := strip (default "" field) in
  let low := lower answer_text in
  (∀ kept,
     (startswith "no" low = true ∧
      ∃ e, explanation "No" answer_text = Ok e ∧ kept = slice_to 95 e) ∨
     (startswith "no" low = false ∧
      contains "not" (slice_to 30 low) = true ∧
      kept = slice_to 95 answer_text) →
     ∃ r,
       analyze_repo_with_ollama a repo events = Ok (Some r) ∧
       (overridden language n →
        ∃ reason, verdict_of (Some r) = Some (Suitable reason)) ∧
       (¬ overridden language n →
        verdict_of (Some r) = Some (Unsuitable (" - " +:+ kept)))) ∧
  (startswith "no" low = false →
   contains "not" (slice_to 30 low) = false →
   analyze_repo_with_ollama a repo events =
     Ok (Some ("Yes - " +:+ slice_to 95 answer_text)) ∧
   verdict_of (Some ("Yes - " +:+ slice_to 95 answer_text)) =
     Some (Suitable (" - " +:+ slice_to 95 answer_text))) ∧
  (startswith "no" low = true →
   after_first "No" answer_text = None →
   ollama_attempt repo (events i) = Raise IndexError).
Proof.
  intros Ha Hp Hl Hn Hi Hfail Hev Hsays answer_text low.
  apply says_no_inv in Hsays as [Hyes Hcases].
  fold answer_text in Hyes, Hcases. fold low in Hyes, Hcases.
  assert (ollama_attempt repo (events i) =
          if startswith "no" low then
            e ← explanation "No" answer_text;
            s ← override_no repo (slice_to 95 e);
            Ok (Some s)
          else if contains "suitable" low &&
                  negb (contains "not" (slice_to 30 low)) then
            Ok (Some ("Yes - " +:+ slice_to 95 answer_text))
          else if contains "not suitable" low || contains "unsuitable" low then
            s ← override_no repo (slice_to 95 answer_text);
            Ok (Some s)
          else Ok (Some "Yes - Repository appears relevant to embedded systems"))
    as Hattempt.
  { rewrite Hev. unfold ollama_attempt. rewrite Z.eqb_refl.
    cbv beta iota zeta. fold answer_text. fold low. by rewrite Hyes. }
  split; [|split].
  - intros kept Hkept.
    pose proof (override_verdicts language n kept) as Hverdicts.
    cbv zeta in Hverdicts.
    eexists. split; [|exact Hverdicts].
    apply (ollama_first_return a repo events i p _ Ha Hp Hi Hfail).
    rewrite Hattempt.
    destruct Hkept as [(Hno & e & He & ->)|(Hno & Hnot & ->)]; rewrite Hno.
    + rewrite He. unfold_bind.
      by rewrite (override_no_typed _ _ _ _ Hl Hn).
    + destruct Hcases as [Hno'|[Hsuit Hwords]]; [congruence|].
      rewrite Hsuit, Hnot, Hwords. cbn [andb negb]. unfold_bind.
      by rewrite (override_no_typed _ _ _ _ Hl Hn).
  - intros Hno Hnot. split; [|reflexivity].
    apply (ollama_first_return a repo events i p _ Ha Hp Hi Hfail).
    rewrite Hattempt, Hno.
    destruct Hcases as [Hno'|[Hsuit _]]; [congruence|].
    by rewrite Hsuit, Hnot.
  - intros Hno Hcap. rewrite Hev. by apply lower_no_raises.
Qed.

Lemma C6_witness :
  analyze_repo_with_ollama ollama_analyzer sample_scored_python
    ollama_says_unsuitable =
    Ok (Some "Yes - This repository is unsuitable: documentation only") ∧
  verdict_of (Some "Yes - This repository is unsuitable: documentation only") =
    Some (Suitable " - This repository is unsuitable: documentation only").
Proof.
  refine (proj1 (proj2 (C6_no_answer_not_always_kept ollama_analyzer
                          sample_scored_python ollama_says_unsuitable 0
                          (Some "This repository is unsuitable: documentation only")
                          "Python" 1 ("stm32, hal", "STM32, HAL")
                          _ _ _ _ _ _ _ _)) _ _);
    first [ vm_compute; reflexivity
          | unfold max_retries; lia
          | intros j Hj; lia ].
Defined.

Lemma ollama_retry_exhausted repo events :
  (∀ j, (j < max_retries - 1)%nat → attempt_fails repo (events j)) →
  ollama_attempt repo (events (max_retries - 1)%nat) = Ok None →
  ollama_retry repo events (seq 0 max_retries) = Ok None.
Proof.
  unfold max_retries, attempt_fails. simpl. intros Hfail Hlast.
  assert (∀ j, (j < 2)%nat →
            ollama_attempt repo (events j) = Ok None ∨
            ∃ e, ollama_attempt repo (events j) = Raise e) as Hf.
  { intros j Hj. specialize (Hfail j Hj).
    destruct (ollama_attempt repo (events j)) as [[s'|]|e]; eauto.
    by destruct (Hfail s'). }
  destruct (Hf 0%nat) as [->|[e ->]]; [lia| |];
    (destruct (Hf 1%nat) as [->|[e' ->]]; [lia| |]); by rewrite Hlast.
Qed.

(** C5, where the code departs from it: when no attempt of the Ollama
    backend returns and the last one ends on a status other than 200, the
    loop runs out, nothing is raised, and the call returns [None], which is
    no verdict; the pipeline stores that [None] as the answer. *)
Theorem C5_ollama_returns_no_verdict a repo events p st js :
  ollama_available a = true →
  build_prompt repo = Ok p →
  (∀ j, (j < max_retries - 1)%nat → attempt_fails repo (events j)) →
  events (max_retries - 1)%nat = OllamaResponse st js →
  st ≠ 200 →
  analyze_repo_with_ollama a repo events = Ok None ∧
  verdict_of None = None ∧
  (use_ollama a = true →
   ∀ g, Utils.ai_response true a repo {| gemini := g; ollama := events |} = None).
Proof.
  intros Ha Hp Hfail Hev Hst.
  assert (analyze_repo_with_ollama a repo events = Ok None) as Hnone.
  { unfold analyze_repo_with_ollama. rewrite Ha, Hp. cbn [negb]. unfold_bind.
    cbv beta iota. rewrite (ollama_retry_exhausted _ _ Hfail); [done|].
    rewrite Hev. unfold ollama_attempt.
    by destruct (Z.eqb_spec st 200). }
  split; [done|]. split; [done|].
  intros Hu g. unfold Utils.ai_response, analyze_repo. cbn [ollama].
  by rewrite Hu, Ha, Hnone.
Qed.

Lemma C5_witness :
  analyze_repo_with_ollama ollama_analyzer sample_scored ollama_down = Ok None ∧
  verdict_of None = None ∧
  (use_ollama ollama_analyzer = true →
   ∀ g, Utils.ai_response true ollama_analyzer sample_scored
          {| gemini := g; ollama := ollama_down |} = None).
Proof.
  apply (C5_ollama_returns_no_verdict ollama_analyzer sample_scored ollama_down
           ("stm32, hal", "STM32, HAL") 500 None).
  - vm_compute. reflexivity.
  - vm_compute. reflexivity.
  - intros j Hj s. discriminate.
  - reflexivity.
  - discriminate.
Defined.

(** When the last attempt raises instead, the exception leaves the retry
    loop, and the handler of the outer [try] answers with a fallback. *)
Lemma ollama_retry_last_raises repo events e :
  (∀ j, (j < max_retries - 1)%nat → attempt_fails repo (events j)) →
  ollama_attempt repo (events (max_retries - 1)%nat) = Raise e →
  ollama_retry repo events (seq 0 max_retries) = Raise e.
Proof.
  unfold max_retries, attempt_fails. simpl. intros Hfail Hlast.
  assert (∀ j, (j < 2)%nat →
            ollama_attempt repo (events j) = Ok None ∨
            ∃ e, ollama_attempt repo (events j) = Raise e) as Hf.
  { intros j Hj. specialize (Hfail j Hj).
    destruct (ollama_attempt repo (events j)) as [[s'|]|e0]; eauto.
    by destruct (Hfail s'). }
  destruct (Hf 0%nat) as [->|[e0 ->]]; [lia| |];
    (destruct (Hf 1%nat) as [->|[e1 ->]]; [lia| |]); by rewrite Hlast.
Qed.

Lemma ollama_fallback_typed repo language n :
  get repo "language" (VStr "") = VStr language →
  keyword_count repo = VInt n →
  ∃ reason, ollama_fallback repo = Ok ("Yes (fallback - " +:+ reason).
Proof.
  intros Hl Hn. unfold ollama_fallback, repo_language. rewrite Hl, Hn. simpl.
  unfold_bind.
  destruct (bool_decide _); [by eexists|].
  destruct (1 <=? n); by eexists.
Qed.

Lemma ollama_exception_becomes_fallback a repo events p e language n :
  ollama_available a = true →
  build_prompt repo = Ok p →
  get repo "language" (VStr "") = VStr language →
  keyword_count repo = VInt n →
  (∀ j, (j < max_retries - 1)%nat → attempt_fails repo (events j)) →
  ollama_attempt repo (events (max_retries - 1)%nat) = Raise e →
  ∃ reason,
    analyze_repo_with_ollama a repo events =
      Ok (Some ("Yes (fallback - " +:+ reason)) ∧
    verdict_of (Some ("Yes (fallback - " +:+ reason)) =
      Some (Suitable (" (fallback - " +:+ reason)).
Proof.
  intros Ha Hp Hl Hn Hfail Hlast.
  destruct (ollama_fallback_typed _ _ _ Hl Hn) as [reason Hfb].
  exists reason. split; [|done].
  unfold analyze_repo_with_ollama. rewrite Ha, Hp. cbn [negb]. unfold_bind.
  cbv beta iota. rewrite (ollama_retry_last_raises _ _ _ Hfail Hlast).
  unfold try_except. by rewrite Hfb.
Qed.

(** The Gemini backend has no attempt that ends without returning or
    raising, so for a well-typed item its call always yields a verdict. *)
Lemma gemini_attempt_verdict repo ev s :
  gemini_attempt repo ev = Ok s → ∃ v, verdict_of (Some s) = Some v.
Proof.
  destruct ev as [|text]; [discriminate|]. unfold gemini_attempt.
  set (answer_text := strip text). set (low := lower answer_text).
  destruct (contains "yes" (slice_to 10 low)).
  { destruct (split1 "Yes" answer_text); [|discriminate].
    unfold_bind. intros [= <-]. by eexists. }
  destruct (contains "no" (slice_to 10 low)).
  { destruct (split1 "No" answer_text); [|discriminate].
    unfold_bind. intros [= <-]. by eexists. }
  destruct (contains "suitable" low && negb (contains "not" (slice_to 30 low))).
  { intros [= <-]. by eexists. }
  destruct (contains "not suitable" low || contains "unsuitable" low).
  { intros [= <-]. by eexists. }
  destruct (py_ge (keyword_count repo) 2) as [[]|]; [| |discriminate];
    unfold_bind; intros [= <-]; by eexists.
Qed.

Lemma gemini_retry_outcome repo events :
  (∃ s v, gemini_retry repo events (seq 0 max_retries) = Ok (Some s) ∧
          verdict_of (Some s) = Some v) ∨
  (∃ e, gemini_retry repo events (seq 0 max_retries) = Raise e).
Proof.
  unfold max_retries. simpl.
  destruct (gemini_attempt repo (events 0%nat)) as [s|e] eqn:H0.
  { left. destruct (gemini_attempt_verdict _ _ _ H0) as [v Hv]. by exists s, v. }
  destruct (gemini_attempt repo (events 1%nat)) as [s|e1] eqn:H1.
  { left. destruct (gemini_attempt_verdict _ _ _ H1) as [v Hv]. by exists s, v. }
  destruct (gemini_attempt repo (events 2%nat)) as [s|e2] eqn:H2.
  { left. destruct (gemini_attempt_verdict _ _ _ H2) as [v Hv]. by exists s, v. }
  right. by exists e2.
Qed.

Lemma gemini_fallback_typed repo language n :
  get repo "language" (VStr "") = VStr language →
  keyword_count repo = VInt n →
  ∃ reason, gemini_fallback repo = Ok ("Yes (fallback - " +:+ reason).
Proof.
  intros Hl Hn. unfold gemini_fallback, repo_language. rewrite Hl, Hn. simpl.
  unfold_bind.
  destruct (_ && _); [by eexists|].
  destruct (2 <=? n); by eexists.
Qed.

Lemma gemini_always_verdict a repo events language n :
  get repo "language" (VStr "") = VStr language →
  keyword_count repo = VInt n →
  ∃ s v, analyze_repo_with_gemini a repo events = Ok (Some s) ∧
         verdict_of (Some s) = Some v.
Proof.
  intros Hl Hn. unfold analyze_repo_with_gemini.
  destruct (gemini_available a); cbn [negb]; [|by eexists _, _].
  destruct (gemini_fallback_typed _ _ _ Hl Hn) as [reason Hfb].
  destruct (build_prompt repo) as [p|e]; unfold_bind; unfold try_except;
    cbv beta iota.
  - destruct (gemini_retry_outcome repo events) as [(s & v & -> & Hv)|[e ->]].
    + by exists s, v.
    + rewrite Hfb. by eexists _, _.
  - rewrite Hfb. by eexists _, _.
Qed.

(** The scenario of the specification: one repository matching both
    required keywords, no backend. *)
Example end_to_end_fallback :
  Crawler.filter_embedded_systems_repos [sample_repo] ["STM32"; "HAL"] ["course"] =
    Ok [Crawler.repo_copy sample_repo 2 ["STM32"; "HAL"]] ∧
  analyze_repo bare_analyzer sample_scored
    {| gemini := λ _, GeminiRaise; ollama := ollama_down |} =
    Ok (Some "Yes (fallback - multiple keywords matched)").
Proof. split; vm_compute; reflexivity. Qed.

End analyzer_facts.

(** * Further properties of the code *)

(** ** Ranking of the filter's output *)

Section ranking_facts.

Import PyStr Crawler.

Ltac unfold_bind := unfold mbind, result_bind, bind in *.

Lemma filter_loop_omap repos req excl acc out :
  filter_loop repos req excl acc = Ok out →
  out = acc ++ omap (scored req excl) repos.
Proof.
  revert acc. induction repos as [|repo repos IH]; intros acc H; simpl in *.
  - injection H as <-. by rewrite app_nil_r.
  - unfold scored at 1.
    destruct (filter_one repo req excl) as [[rc|]|e]; [| |discriminate];
      unfold_bind; apply IH in H as ->; [|done].
    by rewrite <- app_assoc.
Qed.

Lemma filter_output_eq repos req excl out :
  filter_embedded_systems_repos repos req excl = Ok out →
  out = sort_desc (omap (scored req excl) repos).
Proof.
  unfold filter_embedded_systems_repos. intros H.
  destruct (filter_loop repos req excl []) as [fl|e] eqn:Hfl; [|discriminate].
  unfold_bind. injection H as <-.
  by apply filter_loop_omap in Hfl as ->.
Qed.

Lemma insert_desc_sorted x l :
  StronglySorted ranks_before l → StronglySorted ranks_before (insert_desc x l).
Proof.
  unfold ranks_before.
  induction 1 as [|y l Hs IH Hall]; simpl.
  - repeat constructor.
  - destruct (Z.ltb_spec (sort_key x) (sort_key y)) as [Hlt|Hge].
    + constructor; [done|].
      rewrite insert_desc_perm. constructor; [lia|done].
    + constructor; [by constructor|].
      constructor; [done|].
      eapply Forall_impl; [exact Hall|]. simpl. intros z Hz. lia.
Qed.

Lemma sort_desc_sorted l : StronglySorted ranks_before (sort_desc l).
Proof.
  induction l as [|x l IH]; simpl; [constructor|by apply insert_desc_sorted].
Qed.

Lemma insert_desc_filter k x l :
  filter (λ y, sort_key y = k) (insert_desc x l) =
  filter (λ y, sort_key y = k) (x :: l).
Proof.
  induction l as [|y l IH]; simpl; [done|].
  destruct (Z.ltb_spec (sort_key x) (sort_key y)) as [Hlt|Hge]; [|done].
  rewrite filter_cons, IH, !filter_cons.
  destruct (decide (sort_key y = k)), (decide (sort_key x = k)); try done.
  lia.
Qed.

Lemma sort_desc_stable k l :
  filter (λ y, sort_key y = k) (sort_desc l) = filter (λ y, sort_key y = k) l.
Proof.
  induction l as [|x l IH]; simpl; [done|].
  by rewrite insert_desc_filter, !filter_cons, IH.
Qed.

Lemma sort_desc_sorted_id l :
  StronglySorted ranks_before l → sort_desc l = l.
Proof.
  unfold ranks_before.
  induction 1 as [|x l Hs IH Hall]; simpl; [done|].
  rewrite IH. destruct l as [|y l]; simpl; [done|].
  apply Forall_cons in Hall as [Hxy _].
  by destruct (Z.ltb_spec (sort_key x) (sort_key y)); [lia|].
Qed.

Lemma scored_inv req excl repo o :
  scored req excl repo = Some o →
  ∃ name d ts ms,
    repo_name repo = Ok name ∧ repo_description repo = Ok d ∧
    repo_topics repo = Ok ts ∧
    should_exclude excl (all_text name d ts) = false ∧
    ms = List.filter (keyword_matches name d ts) req ∧ ms ≠ [] ∧
    o = repo_copy repo (Z.of_nat (length ms)) ms.
Proof.
  unfold scored. intros H.
  destruct (filter_one repo req excl) as [o'|] eqn:Hf; [|done]. subst o'.
  apply filter_one_inv in Hf as (name & d & ts & Hn & Hd & Ht & Heq).
  exists name, d, ts, (List.filter (keyword_matches name d ts) req).
  destruct (should_exclude _ _); [discriminate|].
  destruct (List.filter _ req) as [|k0 f] eqn:Hfl; [discriminate|].
  injection Heq as ->. by repeat split.
Qed.

Lemma scored_sort_key req excl repo o :
  scored req excl repo = Some o →
  o !! "keyword_match_count" = Some (VInt (sort_key o)) ∧ 1 ≤ sort_key o.
Proof.
  intros (name & d & ts & ms & _ & _ & _ & _ & _ & Hne & ->)%scored_inv.
  assert (repo_copy repo (Z.of_nat (length ms)) ms !! "keyword_match_count" =
          Some (VInt (Z.of_nat (length ms)))) as Hl.
  { unfold repo_copy. rewrite lookup_insert_ne by done.
    by rewrite lookup_insert_eq. }
  unfold sort_key. rewrite Hl. split; [done|].
  destruct ms; [done|]. simpl. lia.
Qed.

(** X1: the filter's output is ranked by match count, highest first, and
    items of equal count keep the order in which the input lists them; it
    holds the scored copies of the input and nothing else, and the key of
    the ranking is the stored [keyword_match_count]. *)
Theorem X1_filter_output_ranked repos req excl out :
  filter_embedded_systems_repos repos req excl = Ok out →
  StronglySorted ranks_before out ∧
  out ≡ₚ omap (scored req excl) repos ∧
  (∀ k, filter (λ y, sort_key y = k) out =
        filter (λ y, sort_key y = k) (omap (scored req excl) repos)) ∧
  (∀ o, o ∈ out →
        o !! "keyword_match_count" = Some (VInt (sort_key o)) ∧ 1 ≤ sort_key o).
Proof.
  intros ->%filter_output_eq. repeat split.
  - apply sort_desc_sorted.
  - apply sort_desc_perm.
  - intros k. apply sort_desc_stable.
  - rewrite sort_desc_perm in H.
    apply list_elem_of_omap in H as (repo & _ & Hs).
    by apply scored_sort_key in Hs as [? _].
  - rewrite sort_desc_perm in H.
    apply list_elem_of_omap in H as (repo & _ & Hs).
    by apply scored_sort_key in Hs as [_ ?].
Qed.

End ranking_facts.

Lemma X1_witness :
  StronglySorted ranks_before
    [Crawler.repo_copy sample_repo 2 ["STM32"; "HAL"];
     Crawler.repo_copy sample_course 1 ["STM32"]].
Proof.
  refine (proj1 (X1_filter_output_ranked [sample_course; sample_repo]
                   ["STM32"; "HAL"] [] _ _)).
  vm_compute. reflexivity.
Defined.

(** ** Deduplication followed by the filter *)

Section pipeline_filter_facts.

Import PyStr Crawler.

Ltac unfold_bind := unfold mbind, result_bind, bind in *.

Lemma dedup_loop_hashable rest acc out :
  Utils.dedup_loop rest acc = Ok out → Forall hashable rest.
Proof.
  revert acc. induction rest as [|repo rest IH]; intros acc H; [constructor|].
  simpl in H. fold (full_name repo) in H.
  destruct (Utils.hash_key (full_name repo)) as [k|e] eqn:Hk; [|discriminate].
  unfold_bind. constructor.
  - intros l Hl. rewrite Hl in Hk. discriminate.
  - destruct (bool_decide _); eauto.
Qed.

Lemma unique_repos_list_inv all_repos unique :
  Utils.unique_repos_list all_repos = Ok unique →
  Forall hashable all_repos ∧ unique = (fresh [] all_repos).*2.
Proof.
  unfold Utils.unique_repos_list. intros H.
  destruct (Utils.dedup_loop all_repos []) as [u|e] eqn:Hd; [|discriminate].
  unfold_bind. injection H as <-.
  pose proof (dedup_loop_hashable _ _ _ Hd) as Hh. split; [done|].
  rewrite (dedup_loop_fresh _ [] Hh) in Hd. by injection Hd as <-.
Qed.

Lemma fresh_NoDup_full_name seen l :
  NoDup (full_name <$> (fresh seen l).*2).
Proof.
  pose proof (fresh_NoDup seen l) as Hnd. rewrite fresh_keys in Hnd.
  assert (key_of <$> (fresh seen l).*2 =
          (λ v, match Utils.hash_key v with
                | Ok k => k
                | Raise _ => Utils.KNone
                end) <$> (full_name <$> (fresh seen l).*2)) as E.
  { generalize (fresh seen l).*2. intros u.
    induction u as [|x u IH]; [done|]. rewrite !fmap_cons, <- IH. done. }
  rewrite E in Hnd. by apply NoDup_fmap_1 in Hnd.
Qed.

Lemma scored_full_name req excl repo o :
  scored req excl repo = Some o → full_name o = full_name repo.
Proof.
  intros (name & d & ts & ms & _ & _ & _ & _ & _ & _ & ->)%scored_inv.
  unfold full_name, get. by rewrite repo_copy_lookup.
Qed.

Lemma omap_scored_full_name req excl l :
  sublist (full_name <$> omap (scored req excl) l) (full_name <$> l).
Proof.
  induction l as [|repo l IH]; simpl; [constructor|].
  destruct (scored req excl repo) as [o|] eqn:Hs; simpl.
  - rewrite (scored_full_name _ _ _ _ Hs). by apply sublist_skip.
  - by apply sublist_cons.
Qed.

(** X2: after deduplication and filtering every identity occurs at most
    once in the ranked list, and each ranked item is the scored copy of the
    first item of the merged search results that carries its identity. *)
Theorem X2_ranked_identities_distinct all_repos req excl unique out :
  Utils.unique_repos_list all_repos = Ok unique →
  filter_embedded_systems_repos unique req excl = Ok out →
  NoDup (full_name <$> out) ∧
  ∀ o, o ∈ out →
    ∃ r pre post,
      all_repos = pre ++ r :: post ∧
      (∀ x, x ∈ pre → full_name x ≠ full_name r) ∧
      scored req excl r = Some o.
Proof.
  intros [Hh ->]%unique_repos_list_inv ->%filter_output_eq. split.
  - rewrite sort_desc_perm.
    eapply sublist_NoDup; [|apply omap_scored_full_name].
    apply fresh_NoDup_full_name.
  - intros o Ho. rewrite sort_desc_perm in Ho.
    apply list_elem_of_omap in Ho as (r & Hr & Hs).
    destruct (fresh_first [] all_repos r Hr) as (pre & post & E & Hpre).
    exists r, pre, post. repeat split; [done| |done].
    intros x Hx Hfn. apply (Hpre x Hx). unfold key_of. by rewrite Hfn.
Qed.

Lemma X2_witness :
  NoDup (full_name <$> [repo_copy sample_repo 2 ["STM32"; "HAL"]]).
Proof.
  refine (proj1 (X2_ranked_identities_distinct
                   [sample_repo; sample_course; sample_repo_again]
                   ["STM32"; "HAL"] ["tutorial"]
                   [sample_repo; sample_course] _ _ _));
    vm_compute; reflexivity.
Defined.

Lemma repo_copy_idem repo mc ms :
  repo_copy (repo_copy repo mc ms) mc ms = repo_copy repo mc ms.
Proof.
  unfold repo_copy.
  rewrite (insert_insert_ne _ "keyword_match_count" "matching_keywords") by done.
  by rewrite !insert_insert_eq.
Qed.

Lemma scored_copy_fixed req excl repo o :
  scored req excl repo = Some o → filter_one o req excl = Ok (Some o).
Proof.
  intros (name & d & ts & ms & Hn & Hd & Ht & Hex & Hms & Hne & ->)%scored_inv.
  destruct (repo_copy_fields repo (Z.of_nat (length ms)) ms) as (E1 & E2 & E3).
  rewrite <- E1 in Hn. rewrite <- E2 in Hd. rewrite <- E3 in Ht.
  rewrite (filter_one_eq _ _ _ _ _ _ Hn Hd Ht), Hex, <- Hms.
  destruct ms; [done|]. cbv beta iota zeta. by rewrite repo_copy_idem.
Qed.

Lemma filter_loop_fixed req excl l acc :
  Forall (λ o, filter_one o req excl = Ok (Some o)) l →
  filter_loop l req excl acc = Ok (acc ++ l).
Proof.
  intros H. revert acc. induction H as [|o l Ho _ IH]; intros acc; simpl.
  - by rewrite app_nil_r.
  - rewrite Ho. unfold_bind. rewrite IH, <- app_assoc. done.
Qed.

(** X3: the filter is idempotent: filtering its own output with the same
    keyword lists returns that output unchanged, with the same counts, the
    same matching keywords and the same order. *)
Theorem X3_filter_idempotent repos req excl out :
  filter_embedded_systems_repos repos req excl = Ok out →
  filter_embedded_systems_repos out req excl = Ok out.
Proof.
  intros Hout. pose proof Hout as ->%filter_output_eq.
  unfold filter_embedded_systems_repos at 1.
  rewrite filter_loop_fixed.
  - unfold_bind. simpl. f_equal. apply sort_desc_sorted_id, sort_desc_sorted.
  - apply Forall_forall. intros o Ho. rewrite sort_desc_perm in Ho.
    apply list_elem_of_omap in Ho as (r & _ & Hs).
    by apply scored_copy_fixed in Hs.
Qed.

Lemma X3_witness :
  filter_embedded_systems_repos
    [repo_copy sample_repo 2 ["STM32"; "HAL"];
     repo_copy sample_course 1 ["STM32"]] ["STM32"; "HAL"] [] =
  Ok [repo_copy sample_repo 2 ["STM32"; "HAL"];
      repo_copy sample_course 1 ["STM32"]].
Proof.
  apply (X3_filter_idempotent [sample_course; sample_repo]).
  vm_compute. reflexivity.
Defined.

End pipeline_filter_facts.

(** ** Requests and the rate limit *)

Section request_facts.

Import Crawler.

Lemma make_request_remaining c r n :
  read_remaining r = Some n →
  rate_limit_remaining (make_request c (NetResponse r)).1 = n.
Proof.
  intros Hn. simpl. rewrite Hn.
  destruct (x_ratelimit_reset r) as [s|]; [|done].
  destruct (String.eqb s ""); [done|]. by destruct (PyStr.int_of_str s).
Qed.

(** X4: how the update after a response decides the wait before the next
    request. After a response that reports two or more remaining calls the
    next request does not wait, whatever the clock reads. After a response
    without the remaining-count header the count is 0, so a reset epoch
    that lies ahead makes the next request wait until one second past it.
    A new crawler does not wait, and every wait is longer than a second. *)
Theorem X4_wait_follows_last_response c r now :
  (∀ n, read_remaining r = Some n → 2 ≤ n →
        rate_limit_wait (make_request c (NetResponse r)).1 now = None) ∧
  (∀ s t, x_ratelimit_remaining r = None →
          x_ratelimit_reset r = Some s → s ≠ "" →
          PyStr.int_of_str s = Some t → now < t → 0 < t →
          rate_limit_wait (make_request c (NetResponse r)).1 now =
            Some (t - now + 1)) ∧
  rate_limit_wait init now = None ∧
  (∀ w, rate_limit_wait c now = Some w →
        1 < w ∧ rate_limit_remaining c ≤ 1 ∧ now < rate_limit_reset c).
Proof.
  repeat split.
  - intros n Hn Hge. unfold rate_limit_wait.
    rewrite (make_request_remaining _ _ _ Hn).
    by destruct (Z.leb_spec n 1); [lia|].
  - intros s t Hrem Hs Hne Ht Hnow Hpos. simpl. unfold read_remaining.
    rewrite Hrem, Hs. destruct (String.eqb_spec s ""); [done|]. rewrite Ht.
    unfold rate_limit_wait. simpl.
    destruct (Z.ltb_spec 0 t); [|lia]. simpl.
    by destruct (Z.ltb_spec 0 (t - now)); [|lia].
  - unfold rate_limit_wait in H.
    destruct (_ && _); [|discriminate].
    destruct (Z.ltb_spec 0 (rate_limit_reset c - now)); [|discriminate].
    injection H as <-. lia.
  - unfold rate_limit_wait in H.
    destruct (Z.leb_spec (rate_limit_remaining c) 1); [done|discriminate].
  - unfold rate_limit_wait in H.
    destruct (_ && _); [|discriminate].
    destruct (Z.ltb_spec 0 (rate_limit_reset c - now)); [lia|discriminate].
Qed.

Lemma X4_witness :
  rate_limit_wait
    (make_request sample_crawler (NetResponse full_response)).1 1700000000 =
    None ∧
  rate_limit_wait
    (make_request sample_crawler
       (NetResponse {| status_code := 403;
                       x_ratelimit_remaining := None;
                       x_ratelimit_reset := Some "1700000060";
                       json := None |})).1 1700000000 = Some 61.
Proof.
  split.
  - apply (proj1 (X4_wait_follows_last_response sample_crawler full_response
                    1700000000) 29); [vm_compute; reflexivity|lia].
  - apply (proj1 (proj2 (X4_wait_follows_last_response sample_crawler _
                           1700000000)) "1700000060" 1700000060);
      [reflexivity|reflexivity|discriminate|vm_compute; reflexivity|lia|lia].
Defined.

(** X5: a request yields a decoded body only when a response arrived with
    status 200; and the counters stored after a response do not depend on
    its status or on its body, so an error response updates them as a
    successful one does. *)
Theorem X5_body_only_on_200 c ev c' body :
  make_request c ev = (c', Some body) →
  ∃ r, ev = NetResponse r ∧ status_code r = 200 ∧ json r = Some body ∧
       is_Some (read_remaining r) ∧
       ∀ st js,
         (make_request c
            (NetResponse {| status_code := st;
                            x_ratelimit_remaining := x_ratelimit_remaining r;
                            x_ratelimit_reset := x_ratelimit_reset r;
                            json := js |})).1 = c'.
Proof.
  destruct ev as [|r]; [discriminate|]. intros H. exists r.
  assert ((make_request c (NetResponse r)).2 = Some body) as Hb
    by by rewrite H.
  assert ((make_request c (NetResponse r)).1 = c') as Hc by by rewrite H.
  clear H. split; [done|].
  assert (status_code r = 200 ∧ json r = Some body ∧
          is_Some (read_remaining r)) as (Hst & Hj & Hrem).
  { simpl in Hb. destruct (read_remaining r) as [n|]; [|discriminate].
    assert (response_body r = Some body →
            status_code r = 200 ∧ json r = Some body ∧ is_Some (Some n)) as Hx.
    { unfold response_body.
      destruct (Z.eqb_spec (status_code r) 200); [|discriminate].
      intros ->. by repeat split; [..|eexists]. }
    destruct (x_ratelimit_reset r) as [s|]; [|by apply Hx].
    destruct (String.eqb s ""); [by apply Hx|].
    destruct (PyStr.int_of_str s); [by apply Hx|discriminate]. }
  repeat split; try done.
  intros st js. rewrite <- Hc. simpl. unfold read_remaining. simpl.
  destruct (match x_ratelimit_remaining r with
            | Some s => PyStr.int_of_str s
            | None => Some 0
            end); [|done].
  destruct (x_ratelimit_reset r) as [s|]; [|done].
  destruct (String.eqb s ""); [done|]. by destruct (PyStr.int_of_str s).
Qed.

Lemma X5_witness :
  ∃ r, NetResponse full_response = NetResponse r ∧ status_code r = 200 ∧
       json r = Some (Some [sample_repo]) ∧
       is_Some (read_remaining r) ∧
       ∀ st js,
         (make_request sample_crawler
            (NetResponse {| status_code := st;
                            x_ratelimit_remaining := x_ratelimit_remaining r;
                            x_ratelimit_reset := x_ratelimit_reset r;
                            json := js |})).1 =
         {| rate_limit_remaining := 29; rate_limit_reset := 1700000060 |}.
Proof.
  apply (X5_body_only_on_200 sample_crawler (NetResponse full_response)).
  vm_compute. reflexivity.
Defined.




End request_facts.

(** ** Verdicts of the two backends *)

Section verdict_facts.

Import PyStr Analyzer.

Ltac unfold_bind := unfold mbind, result_bind, bind in *.

Ltac yes := left; eexists; reflexivity.
Ltac no := right; eexists; reflexivity.

Lemma override_no_yes_or_no repo kept s :
  override_no repo kept = Ok s → yes_or_no s.
Proof.
  unfold override_no. destruct (repo_language repo) as [lang|]; [|discriminate].
  unfold_bind.
  destruct (bool_decide (lang ∈ systems_languages)).
  - destruct (py_ge (keyword_count repo) 1) as [[]|]; [| |discriminate].
    + intros [= <-]. yes.
    + destruct (py_ge (keyword_count repo) 2) as [[]|]; [| |discriminate];
        intros [= <-]; [yes|no].
  - destruct (py_ge (keyword_count repo) 2) as [[]|]; [| |discriminate];
      intros [= <-]; [yes|no].
Qed.

Lemma ollama_attempt_yes_or_no repo ev s :
  ollama_attempt repo ev = Ok (Some s) → yes_or_no s.
Proof.
  destruct ev as [|st [field|]]; [discriminate| |];
    unfold ollama_attempt; (destruct (st =? 200); [|discriminate]);
    [|discriminate].
  set (answer_text := strip (default "" field)).
  set (low := lower answer_text).
  destruct (startswith "yes" low).
  { destruct (explanation "Yes" answer_text); [|discriminate].
    unfold_bind. intros [= <-]. yes. }
  destruct (startswith "no" low).
  { destruct (explanation "No" answer_text) as [e|]; [|discriminate].
    unfold_bind.
    destruct (override_no repo (slice_to 95 e)) as [s'|] eqn:Ho; [|discriminate].
    intros [= <-]. by apply override_no_yes_or_no in Ho. }
  destruct (contains "suitable" low && negb (contains "not" (slice_to 30 low))).
  { intros [= <-]. yes. }
  destruct (contains "not suitable" low || contains "unsuitable" low).
  { unfold_bind.
    destruct (override_no repo (slice_to 95 answer_text)) as [s'|] eqn:Ho;
      [|discriminate].
    intros [= <-]. by apply override_no_yes_or_no in Ho. }
  intros [= <-]. yes.
Qed.

Lemma ollama_attempt_none repo ev :
  ollama_attempt repo ev = Ok None →
  ∃ st js, ev = OllamaResponse st js ∧ st ≠ 200.
Proof.
  destruct ev as [|st js]; [discriminate|]. unfold ollama_attempt.
  destruct (Z.eqb_spec st 200) as [->|Hne]; [|by exists st, js].
  destruct js as [field|]; [|discriminate].
  set (answer_text := strip (default "" field)).
  set (low := lower answer_text).
  destruct (startswith "yes" low).
  { destruct (explanation "Yes" answer_text); discriminate. }
  destruct (startswith "no" low).
  { destruct (explanation "No" answer_text) as [e|]; [|discriminate].
    unfold_bind. destruct (override_no repo (slice_to 95 e)); discriminate. }
  destruct (contains "suitable" low && negb (contains "not" (slice_to 30 low)));
    [discriminate|].
  destruct (contains "not suitable" low || contains "unsuitable" low);
    [|discriminate].
  unfold_bind. destruct (override_no repo (slice_to 95 answer_text)); discriminate.
Qed.

Lemma ollama_retry_some repo events attempts s :
  ollama_retry repo events attempts = Ok (Some s) →
  ∃ j, j ∈ attempts ∧ ollama_attempt repo (events j) = Ok (Some s).
Proof.
  induction attempts as [|j attempts IH]; [discriminate|]. cbn [ollama_retry].
  destruct (ollama_attempt repo (events j)) as [[s'|]|e] eqn:Hj.
  - intros [= <-]. exists j. split; [left|done].
  - intros (j' & Hin & H)%IH. exists j'. split; [by right|done].
  - destruct (j <? max_retries - 1)%nat; [|discriminate].
    intros (j' & Hin & H)%IH. exists j'. split; [by right|done].
Qed.

Lemma ollama_fallback_yes repo s :
  ollama_fallback repo = Ok s → yes_or_no s.
Proof.
  unfold ollama_fallback. destruct (repo_language repo) as [lang|];
    [|discriminate]. unfold_bind.
  destruct (bool_decide _); [intros [= <-]; yes|].
  destruct (py_ge (keyword_count repo) 1) as [[]|]; [| |discriminate];
    intros [= <-]; yes.
Qed.

Lemma gemini_fallback_yes repo s :
  gemini_fallback repo = Ok s → yes_or_no s.
Proof.
  unfold gemini_fallback. destruct (repo_language repo) as [lang|];
    [|discriminate]. unfold_bind.
  destruct (py_ge (keyword_count repo) 1) as [some|]; [|discriminate].
  destruct (some && bool_decide _); [intros [= <-]; yes|].
  destruct (py_ge (keyword_count repo) 2) as [[]|]; [| |discriminate];
    intros [= <-]; yes.
Qed.

Lemma gemini_attempt_yes_or_no repo ev s :
  gemini_attempt repo ev = Ok s → yes_or_no s.
Proof.
  destruct ev as [|text]; [discriminate|]. unfold gemini_attempt.
  set (answer_text := strip text). set (low := lower answer_text).
  destruct (contains "yes" (slice_to 10 low)).
  { destruct (split1 "Yes" answer_text); [|discriminate].
    unfold_bind. intros [= <-]. yes. }
  destruct (contains "no" (slice_to 10 low)).
  { destruct (split1 "No" answer_text); [|discriminate].
    unfold_bind. intros [= <-]. no. }
  destruct (contains "suitable" low && negb (contains "not" (slice_to 30 low))).
  { intros [= <-]. yes. }
  destruct (contains "not suitable" low || contains "unsuitable" low).
  { intros [= <-]. no. }
  destruct (py_ge (keyword_count repo) 2) as [[]|]; [| |discriminate];
    unfold_bind; intros [= <-]; [yes|no].
Qed.

Lemma gemini_retry_yes_or_no repo events :
  (∃ s, gemini_retry repo events (seq 0 max_retries) = Ok (Some s) ∧
        yes_or_no s) ∨
  (∃ e, gemini_retry repo events (seq 0 max_retries) = Raise e).
Proof.
  unfold max_retries. simpl.
  destruct (gemini_attempt repo (events 0%nat)) as [s|e] eqn:H0.
  { left. exists s. split; [done|]. by apply gemini_attempt_yes_or_no in H0. }
  destruct (gemini_attempt repo (events 1%nat)) as [s|e1] eqn:H1.
  { left. exists s. split; [done|]. by apply gemini_attempt_yes_or_no in H1. }
  destruct (gemini_attempt repo (events 2%nat)) as [s|e2] eqn:H2.
  { left. exists s. split; [done|]. by apply gemini_attempt_yes_or_no in H2. }
  right. by exists e2.
Qed.

Lemma gemini_call_outcome a repo events :
  gemini_available a = true →
  (∃ s, analyze_repo_with_gemini a repo events = Ok (Some s) ∧ yes_or_no s) ∨
  (∃ e, analyze_repo_with_gemini a repo events = Raise e).
Proof.
  intros Ha. unfold analyze_repo_with_gemini. rewrite Ha. cbn [negb].
  assert ((∃ s, (s ← gemini_fallback repo; Ok (Some s)) = Ok (Some s) ∧
                yes_or_no s) ∨
          (∃ e, (s ← gemini_fallback repo; Ok (Some s)) =
                (Raise e : result (option string)))) as Hfb.
  { destruct (gemini_fallback repo) as [s|e] eqn:Hf; unfold_bind.
    - left. exists s. split; [done|]. by apply gemini_fallback_yes in Hf.
    - right. by exists e. }
  destruct (build_prompt repo) as [p|e]; unfold_bind; unfold try_except;
    cbv beta iota; [|done].
  destruct (gemini_retry_yes_or_no repo events) as [(s & -> & Hs)|[e ->]];
    [|done].
  left. by exists s.
Qed.

Lemma ollama_call_some a repo events s :
  ollama_available a = true →
  analyze_repo_with_ollama a repo events = Ok (Some s) → yes_or_no s.
Proof.
  intros Ha. unfold analyze_repo_with_ollama. rewrite Ha. cbn [negb].
  assert (∀ r : result (option string),
            try_except r (λ _, s ← ollama_fallback repo; Ok (Some s)) =
              Ok (Some s) →
            r = Ok (Some s) ∨ ollama_fallback repo = Ok s) as Htry.
  { intros [o|e]; simpl; [intros [= ->]; by left|].
    destruct (ollama_fallback repo); unfold_bind; [|discriminate].
    intros [= ->]. by right. }
  intros [H|H]%Htry; [|by apply ollama_fallback_yes in H].
  destruct (build_prompt repo); unfold_bind; [|discriminate].
  apply ollama_retry_some in H as (j & _ & H).
  by apply ollama_attempt_yes_or_no in H.
Qed.

(** X7: whatever [analyze_repo] returns as a text reads as Suitable or
    Unsuitable: the "N/A" answers of the two backends are out of its reach,
    since it calls a backend only when that backend is available. *)
Theorem X7_analyze_repo_never_unavailable a repo net s :
  analyze_repo a repo net = Ok (Some s) → yes_or_no s.
Proof.
  unfold analyze_repo.
  destruct (use_ollama a && ollama_available a) eqn:Ho.
  - apply andb_true_iff in Ho as [_ Ho]. by apply ollama_call_some.
  - destruct (gemini_available a) eqn:Hg.
    + destruct (gemini_call_outcome a repo (gemini net) Hg)
        as [(s' & -> & Hs)|[e ->]]; [|discriminate].
      by intros [= <-].
    + destruct (py_ge _ 2) as [[]|]; [| |discriminate];
        unfold_bind; intros [= <-]; yes.
Qed.

Lemma X7_witness : yes_or_no "No - documentation only".
Proof.
  apply (X7_analyze_repo_never_unavailable ollama_analyzer sample_scored_python
           {| gemini := λ _, GeminiRaise; ollama := ollama_says_no |}).
  vm_compute. reflexivity.
Defined.

(** X8: the Ollama call returns [None] in one situation only: the backend
    is available, the prompt was built, no attempt returned, and the last
    attempt got a response whose status is not 200. *)
Theorem X8_ollama_none_only_on_status a repo events :
  analyze_repo_with_ollama a repo events = Ok None →
  ollama_available a = true ∧
  (∃ p, build_prompt repo = Ok p) ∧
  (∀ j, (j < max_retries)%nat → attempt_fails repo (events j)) ∧
  ∃ st js, events (max_retries - 1)%nat = OllamaResponse st js ∧ st ≠ 200.
Proof.
  unfold analyze_repo_with_ollama.
  destruct (ollama_available a); cbn [negb]; [|discriminate].
  destruct (build_prompt repo) as [p|e]; unfold_bind; unfold try_except;
    cbv beta iota.
  2:{ destruct (ollama_fallback repo); discriminate. }
  unfold max_retries, attempt_fails. simpl.
  destruct (ollama_attempt repo (events 0%nat)) as [[s0|]|e0] eqn:H0;
    [discriminate| |];
    (destruct (ollama_attempt repo (events 1%nat)) as [[s1|]|e1] eqn:H1;
       [discriminate| |]);
    (destruct (ollama_attempt repo (events 2%nat)) as [[s2|]|e2] eqn:H2;
       [discriminate| |destruct (ollama_fallback repo); discriminate]);
    intros _; (split; [done|]); (split; [by exists p|]);
    (split; [|by apply ollama_attempt_none in H2]);
    intros [|[|[|j]]] Hj s; congruence || lia.
Qed.

Lemma X8_witness :
  ollama_available ollama_analyzer = true ∧
  (∃ p, build_prompt sample_scored = Ok p) ∧
  (∀ j, (j < max_retries)%nat → attempt_fails sample_scored (ollama_down j)) ∧
  ∃ st js, ollama_down (max_retries - 1)%nat = OllamaResponse st js ∧ st ≠ 200.
Proof.
  apply (X8_ollama_none_only_on_status ollama_analyzer sample_scored ollama_down).
  vm_compute. reflexivity.
Defined.

(** X9: the Gemini call never returns [None]: it returns a text or
    raises; and for an item whose language is a string (or absent) and whose
    match count is an integer it always returns a text that reads as a
    verdict, whatever the service answers. *)
Theorem X9_gemini_always_answers a repo events :
  ((∃ s, analyze_repo_with_gemini a repo events = Ok (Some s)) ∨
   (∃ e, analyze_repo_with_gemini a repo events = Raise e)) ∧
  (∀ language n,
     get repo "language" (VStr "") = VStr language →
     keyword_count repo = VInt n →
     ∃ s v, analyze_repo_with_gemini a repo events = Ok (Some s) ∧
            verdict_of (Some s) = Some v).
Proof.
  split; [|intros language n; apply gemini_always_verdict].
  destruct (gemini_available a) eqn:Ha.
  - destruct (gemini_call_outcome a repo events Ha) as [(s & -> & _)|[e ->]];
      [left|right]; by eexists.
  - left. unfold analyze_repo_with_gemini. rewrite Ha. by eexists.
Qed.

Lemma X9_witness :
  ∃ s v, analyze_repo_with_gemini gemini_analyzer sample_scored gemini_says_no =
           Ok (Some s) ∧
         verdict_of (Some s) = Some v.
Proof.
  apply (proj2 (X9_gemini_always_answers gemini_analyzer sample_scored
                  gemini_says_no) "C" 2); vm_compute; reflexivity.
Defined.

Lemma length_app_str (a b : string) :
  String.length (a +:+ b) = (String.length a + String.length b)%nat.
Proof.
  induction a as [|c a IH]; [done|].
  change (S (String.length (a +:+ b)) = S (String.length a + String.length b)).
  by rewrite IH.
Qed.

Lemma length_slice_to n s : (String.length (slice_to n s) ≤ n)%nat.
Proof.
  revert s. induction n as [|n IH]; intros [|c s]; simpl; try lia.
  specialize (IH s). lia.
Qed.

(** X10: the length of what an attempt returns is bounded. A text returned
    by a Gemini attempt has at most 106 characters, and a text of the
    Ollama backend that reads as Unsuitable has at most 100. *)
Theorem X10_answer_length_bounded repo :
  (∀ ev s, gemini_attempt repo ev = Ok s → (String.length s ≤ 106)%nat) ∧
  (∀ ev s reason,
     ollama_attempt repo ev = Ok (Some s) →
     verdict_of (Some s) = Some (Unsuitable reason) →
     (String.length s ≤ 100)%nat).
Proof.
  assert (∀ pre t s (n b : nat),
            Ok (pre +:+ t) = (Ok s : result string) →
            (String.length t ≤ n)%nat → (String.length pre + n ≤ b)%nat →
            (String.length s ≤ b)%nat) as Hcut.
  { intros pre t s n b [= <-] Ht Hb. rewrite length_app_str. lia. }
  split.
  - intros [|text] s; [discriminate|]. unfold gemini_attempt.
    set (answer_text := strip text). set (low := lower answer_text).
    destruct (contains "yes" (slice_to 10 low)).
    { destruct (split1 "Yes" answer_text) as [rest|]; [|discriminate].
      unfold_bind. intros H.
      apply (Hcut _ _ _ 100%nat _ H); [apply length_slice_to|vm_compute; lia]. }
    destruct (contains "no" (slice_to 10 low)).
    { destruct (split1 "No" answer_text) as [rest|]; [|discriminate].
      unfold_bind. intros H.
      apply (Hcut _ _ _ 100%nat _ H); [apply length_slice_to|vm_compute; lia]. }
    destruct (contains "suitable" low && negb (contains "not" (slice_to 30 low))).
    { intros H.
      apply (Hcut _ _ _ 100%nat _ H); [apply length_slice_to|vm_compute; lia]. }
    destruct (contains "not suitable" low || contains "unsuitable" low).
    { intros H.
      apply (Hcut _ _ _ 100%nat _ H); [apply length_slice_to|vm_compute; lia]. }
    destruct (py_ge (keyword_count repo) 2) as [[]|]; [| |discriminate];
      unfold_bind; intros [= <-]; vm_compute; lia.
  - assert (∀ kept s reason,
              override_no repo (slice_to 95 kept) = Ok s →
              verdict_of (Some s) = Some (Unsuitable reason) →
              (String.length s ≤ 100)%nat) as Hov.
    { intros kept s reason. unfold override_no.
      destruct (repo_language repo) as [lang|]; [|discriminate]. unfold_bind.
      assert (∀ several : result bool,
                match several with
                | Ok x =>
                    if (x : bool)
                    then Ok ("Yes - Matches multiple embedded keywords (" +:+
                             format_count (keyword_count repo) +:+ ")")
                    else Ok ("No - " +:+ slice_to 95 kept)
                | Raise e => Raise e
                end = Ok s →
                verdict_of (Some s) = Some (Unsuitable reason) →
                (String.length s ≤ 100)%nat) as Hsev.
      { intros [[]|]; [| |discriminate].
        - intros [= <-]. discriminate.
        - intros H _.
          apply (Hcut _ _ _ 95%nat _ H); [apply length_slice_to|vm_compute; lia]. }
      destruct (bool_decide (lang ∈ systems_languages)); [|apply Hsev].
      destruct (py_ge (keyword_count repo) 1) as [[]|]; [| |discriminate];
        [|apply Hsev].
      intros [= <-]. discriminate. }
    intros [|st [field|]] s reason; [discriminate| |];
      unfold ollama_attempt; (destruct (st =? 200); [|discriminate]);
      [|discriminate].
    set (answer_text := strip (default "" field)).
    set (low := lower answer_text).
    destruct (startswith "yes" low).
    { destruct (explanation "Yes" answer_text); [|discriminate].
      unfold_bind. intros [= <-]. discriminate. }
    destruct (startswith "no" low).
    { destruct (explanation "No" answer_text) as [e|]; [|discriminate].
      unfold_bind.
      destruct (override_no repo (slice_to 95 e)) as [s'|] eqn:Ho;
        [|discriminate].
      intros [= <-] Hv. by apply (Hov _ _ _ Ho Hv). }
    destruct (contains "suitable" low && negb (contains "not" (slice_to 30 low))).
    { intros [= <-]. discriminate. }
    destruct (contains "not suitable" low || contains "unsuitable" low).
    { unfold_bind.
      destruct (override_no repo (slice_to 95 answer_text)) as [s'|] eqn:Ho;
        [|discriminate].
      intros [= <-] Hv. by apply (Hov _ _ _ Ho Hv). }
    intros [= <-]. discriminate.
Qed.

Lemma X10_witness :
  (String.length "No - - documentation only" ≤ 106)%nat.
Proof.
  apply (proj1 (X10_answer_length_bounded sample_scored)
           (GeminiText "No - documentation only")).
  vm_compute. reflexivity.
Defined.

(** X11: when Ollama is requested and its health check does not answer
    with status 200, [analyze_repo] uses neither backend: it returns the
    keyword fallback even if a Gemini key is given and the Gemini library
    is installed. *)
Theorem X11_ollama_request_disables_gemini
    gemini_api_key genai_imported configure_ok tags_status repo net n :
  tags_status ≠ Some 200 →
  keyword_count repo = VInt n →
  gemini_available
    (init gemini_api_key true genai_imported configure_ok tags_status) = false ∧
  analyze_repo
    (init gemini_api_key true genai_imported configure_ok tags_status)
    repo net =
  Ok (Some (if 2 <=? n then "Yes (fallback - multiple keywords matched)"
            else "Yes (fallback - pre-filtered repo)")).
Proof.
  intros Htags Hn.
  assert (gemini_available
            (init gemini_api_key true genai_imported configure_ok tags_status) =
          false) as Hg.
  { simpl. by rewrite andb_false_r. }
  split; [done|].
  unfold analyze_repo. rewrite Hg.
  assert (ollama_available
            (init gemini_api_key true genai_imported configure_ok tags_status) =
          false) as ->.
  { simpl. destruct tags_status as [st|]; [|done].
    destruct (Z.eqb_spec st 200); [by subst|done]. }
  rewrite andb_false_r. unfold keyword_count in Hn. rewrite Hn. simpl.
  unfold_bind. by destruct (2 <=? n).
Qed.

Lemma X11_witness :
  gemini_available (init "key" true true true (Some 503)) = false ∧
  analyze_repo (init "key" true true true (Some 503)) sample_scored
    {| gemini := gemini_says_no; ollama := ollama_down |} =
  Ok (Some "Yes (fallback - multiple keywords matched)").
Proof.
  apply (X11_ollama_request_disables_gemini "key" true true (Some 503)
           sample_scored {| gemini := gemini_says_no; ollama := ollama_down |} 2).
  - discriminate.
  - vm_compute. reflexivity.
Defined.

End verdict_facts.

(** ** The answer stored by the pipeline *)

Section answer_facts.

Import PyStr Analyzer.

Ltac unfold_bind := unfold mbind, result_bind, bind in *.

(** X12: unless the Ollama backend is the one in use, the pipeline stores a
    text that reads as a Yes or a No verdict for every record, whatever the
    record holds and whatever the Gemini service answers or raises: an
    exception of the analysis becomes the "API error" Yes. *)
Theorem X12_stored_answer_is_verdict analyze_with_ai a data net :
  use_ollama a && ollama_available a = false →
  ∃ s, Utils.ai_response analyze_with_ai a data net = Some s ∧ yes_or_no s.
Proof.
  intros Ho. unfold Utils.ai_response.
  destruct analyze_with_ai; [|eexists; split; [done|left; by eexists]].
  unfold analyze_repo. rewrite Ho.
  destruct (gemini_available a) eqn:Hg.
  - destruct (gemini_call_outcome a data (gemini net) Hg)
      as [(s & -> & Hs)|[e ->]].
    + by exists s.
    + eexists. split; [done|]. left. by eexists.
  - destruct (py_ge _ 2) as [[]|]; unfold_bind;
      eexists; (split; [done|]); left; by eexists.
Qed.

Lemma X12_witness :
  ∃ s, Utils.ai_response true gemini_analyzer sample_scored_no_language
         {| gemini := gemini_says_no; ollama := ollama_down |} = Some s ∧
       yes_or_no s.
Proof.
  apply (X12_stored_answer_is_verdict true gemini_analyzer
           sample_scored_no_language
           {| gemini := gemini_says_no; ollama := ollama_down |}).
  vm_compute. reflexivity.
Defined.

Lemma repo_data_language repo :
  get (Utils.repo_data repo) "language" (VStr "") = get repo "language" VNone.
Proof.
  unfold Utils.repo_data, get at 1. simpl.
  rewrite !lookup_insert_ne by done. by rewrite lookup_insert_eq.
Qed.

Lemma ollama_retry_all_raise repo events :
  (∀ j, (j < max_retries)%nat → ∃ e, ollama_attempt repo (events j) = Raise e) →
  ∃ e, ollama_retry repo events (seq 0 max_retries) = Raise e.
Proof.
  unfold max_retries. intros H. simpl.
  destruct (H 0%nat) as [e0 ->]; [lia|].
  destruct (H 1%nat) as [e1 ->]; [lia|].
  destruct (H 2%nat) as [e2 ->]; [lia|]. by exists e2.
Qed.

Lemma gemini_retry_all_raise repo events :
  (∀ j, (j < max_retries)%nat → ∃ e, gemini_attempt repo (events j) = Raise e) →
  ∃ e, gemini_retry repo events (seq 0 max_retries) = Raise e.
Proof.
  unfold max_retries. intros H. simpl.
  destruct (H 0%nat) as [e0 ->]; [lia|].
  destruct (H 1%nat) as [e1 ->]; [lia|].
  destruct (H 2%nat) as [e2 ->]; [lia|]. by exists e2.
Qed.

(** X13: a search result without a language gets a record whose language
    is [None]; for such a record, when every attempt of the backend in use
    raises, the handler of the backend raises in turn (it lower-cases the
    language), and the pipeline stores the "API error" Yes. *)
Theorem X13_null_language_api_error a data net :
  get data "language" (VStr "") = VNone →
  (∀ repo, repo !! "language" = None →
     get (Utils.repo_data repo) "language" (VStr "") = VNone) ∧
  (use_ollama a = true → ollama_available a = true →
   (∀ j, (j < max_retries)%nat →
         ∃ e, ollama_attempt data (ollama net j) = Raise e) →
   analyze_repo a data net = Raise AttributeError ∧
   Utils.ai_response true a data net =
     Some "Yes (API error - defaulting to yes)") ∧
  (use_ollama a = false → gemini_available a = true →
   (∀ j, (j < max_retries)%nat →
         ∃ e, gemini_attempt data (gemini net j) = Raise e) →
   analyze_repo a data net = Raise AttributeError ∧
   Utils.ai_response true a data net =
     Some "Yes (API error - defaulting to yes)").
Proof.
  intros Hl.
  assert (repo_language data = Raise AttributeError) as Hlang
    by (unfold repo_language; by rewrite Hl).
  split; [|split].
  - intros repo Hr. rewrite repo_data_language. unfold get. by rewrite Hr.
  - intros Hu Ha Hall.
    assert (analyze_repo a data net = Raise AttributeError) as Hr.
    { unfold analyze_repo, analyze_repo_with_ollama. rewrite Hu, Ha.
      cbn [negb andb].
      destruct (build_prompt data) as [p|e]; unfold_bind; unfold try_except;
        cbv beta iota.
      - destruct (ollama_retry_all_raise data (ollama net) Hall) as [e ->].
        unfold ollama_fallback. by rewrite Hlang.
      - unfold ollama_fallback. by rewrite Hlang. }
    split; [done|]. unfold Utils.ai_response. by rewrite Hr.
  - intros Hu Hg Hall.
    assert (analyze_repo a data net = Raise AttributeError) as Hr.
    { unfold analyze_repo, analyze_repo_with_gemini. rewrite Hu, Hg.
      cbn [negb andb].
      destruct (build_prompt data) as [p|e]; unfold_bind; unfold try_except;
        cbv beta iota.
      - destruct (gemini_retry_all_raise data (gemini net) Hall) as [e ->].
        unfold gemini_fallback. by rewrite Hlang.
      - unfold gemini_fallback. by rewrite Hlang. }
    split; [done|]. unfold Utils.ai_response. by rewrite Hr.
Qed.

Lemma X13_witness :
  analyze_repo gemini_analyzer sample_scored_no_language
    {| gemini := gemini_says_no; ollama := ollama_down |} =
    Raise AttributeError ∧
  Utils.ai_response true gemini_analyzer sample_scored_no_language
    {| gemini := gemini_says_no; ollama := ollama_down |} =
    Some "Yes (API error - defaulting to yes)".
Proof.
  apply (proj2 (proj2 (X13_null_language_api_error gemini_analyzer
                         sample_scored_no_language
                         {| gemini := gemini_says_no; ollama := ollama_down |}
                         eq_refl))).
  - reflexivity.
  - reflexivity.
  - intros j _. exists IndexError. reflexivity.
Defined.

(** X14: an answer of the Ollama model that starts with "no" in lower case
    and holds no capitalised "No" is not kept as a No: cutting out its
    explanation raises, the attempt is retried, and when all three answers
    are of that kind the call returns a fallback Yes. *)
Theorem X14_lower_case_no_becomes_yes a repo events p language n :
  ollama_available a = true →
  build_prompt repo = Ok p →
  get repo "language" (VStr "") = VStr language →
  keyword_count repo = VInt n →
  (∀ j, (j < max_retries)%nat →
     ∃ field, events j = OllamaResponse 200 (Some field) ∧
              startswith "no" (lower (strip (default "" field))) = true ∧
              after_first "No" (strip (default "" field)) = None) →
  ∃ reason,
    analyze_repo_with_ollama a repo events =
      Ok (Some ("Yes (fallback - " +:+ reason)) ∧
    verdict_of (Some ("Yes (fallback - " +:+ reason)) =
      Some (Suitable (" (fallback - " +:+ reason)).
Proof.
  intros Ha Hp Hl Hn Hall.
  assert (∀ j, (j < max_retries)%nat →
            ollama_attempt repo (events j) = Raise IndexError) as Hraise.
  { intros j Hj. destruct (Hall j Hj) as (field & -> & Hno & Hcap).
    by apply lower_no_raises. }
  apply (ollama_exception_becomes_fallback a repo events p IndexError language n);
    try done.
  - intros j Hj s. rewrite Hraise; [discriminate|]. unfold max_retries in *. lia.
  - apply Hraise. unfold max_retries. lia.
Qed.

Lemma X14_witness :
  ∃ reason,
    analyze_repo_with_ollama ollama_analyzer sample_scored_python
      ollama_says_lower_no =
      Ok (Some ("Yes (fallback - " +:+ reason)) ∧
    verdict_of (Some ("Yes (fallback - " +:+ reason)) =
      Some (Suitable (" (fallback - " +:+ reason)).
Proof.
  apply (X14_lower_case_no_becomes_yes ollama_analyzer sample_scored_python
           ollama_says_lower_no ("stm32, hal", "STM32, HAL") "Python" 1);
    try (vm_compute; reflexivity).
  intros j _. exists (Some "no - documentation only").
  repeat split; vm_compute; reflexivity.
Defined.

End answer_facts.

(** ** The batch loop of [run_crawler] *)

Section batch_facts.

Import Runner.

Ltac unfold_bind := unfold mbind, result_bind, bind in *.

Context (analyze_with_ai : bool) (a : Analyzer.analyzer)
        (net : Z → Analyzer.backends)
        (filtered_repos : list (gmap string value)).

Lemma range_fuel_seqZ fuel start stop :
  (Z.to_nat (stop - start) ≤ fuel)%nat →
  range_fuel fuel start stop 1 = seqZ start (stop - start).
Proof.
  revert start. induction fuel as [|fuel IH]; intros start Hf; simpl.
  - by rewrite seqZ_nil by lia.
  - destruct (Z.ltb_spec start stop).
    + rewrite seqZ_cons by lia. rewrite IH by lia.
      f_equal. f_equal; lia.
    + by rewrite seqZ_nil by lia.
Qed.

Lemma py_range_seqZ start stop : py_range start stop 1 = seqZ start (stop - start).
Proof. unfold py_range. by apply range_fuel_seqZ. Qed.

Lemma py_index_in_range {A} (l : list A) idx x :
  0 ≤ idx → l !! Z.to_nat idx = Some x → py_index l idx = Ok x.
Proof.
  intros Hidx Hx. unfold py_index.
  destruct (Z.ltb_spec idx 0); [lia|].
  destruct (Z.ltb_spec idx 0); [lia|]. by rewrite Hx.
Qed.

Lemma batch_items_spec (k : nat) s output_data :
  0 ≤ s → s + Z.of_nat k ≤ Z.of_nat (length filtered_repos) →
  ∃ recs,
    batch_items analyze_with_ai a net filtered_repos (seqZ s (Z.of_nat k))
      output_data = Ok (output_data ++ recs) ∧
    Forall2 (record_for analyze_with_ai a net filtered_repos) (seqZ s (Z.of_nat k)) recs.
Proof.
  revert s output_data. induction k as [|k IH]; intros s output_data Hs Hk.
  - exists []. rewrite seqZ_nil by lia. simpl. by rewrite app_nil_r.
  - rewrite seqZ_cons by lia.
    replace (Z.pred (Z.of_nat (S k))) with (Z.of_nat k) by lia.
    destruct (lookup_lt_is_Some_2 filtered_repos (Z.to_nat s)) as [repo Hrepo];
      [lia|].
    simpl. unfold record_at. rewrite (py_index_in_range _ _ _ Hs Hrepo).
    unfold_bind.
    destruct (IH (Z.succ s)
                (output_data ++ [classified analyze_with_ai a net s repo]))
      as (recs & -> & Hrecs); [lia|lia|].
    exists (classified analyze_with_ai a net s repo :: recs).
    rewrite <- app_assoc. split; [done|].
    constructor; [by exists repo|done].
Qed.

Lemma batches_spec fuel limit s output_data dumps :
  0 ≤ s → limit ≤ Z.of_nat (length filtered_repos) →
  (Z.to_nat (limit - s) ≤ fuel)%nat →
  ∃ recs later,
    batches analyze_with_ai a net filtered_repos limit
      (range_fuel fuel s limit batch_size) output_data dumps =
      Ok (output_data ++ recs, dumps ++ later) ∧
    Forall2 (record_for analyze_with_ai a net filtered_repos) (seqZ s (limit - s)) recs ∧
    (limit ≤ s → later = []) ∧
    ∀ (k : nat) d, later !! k = Some d →
      d = take (length output_data +
                Z.to_nat (Z.min (s + 3 * (Z.of_nat k + 1)) limit - s))
            (output_data ++ recs).
Proof.
  unfold batch_size.
  revert s output_data dumps.
  induction fuel as [|fuel IH]; intros s output_data dumps Hs Hlim Hfuel.
  - exists [], []. simpl. rewrite !app_nil_r, seqZ_nil by lia.
    repeat split; [constructor|]. intros k d Hd. by destruct k.
  - simpl. destruct (Z.ltb_spec s limit) as [Hlt|Hge]; cycle 1.
    { exists [], []. simpl. rewrite !app_nil_r, seqZ_nil by lia.
      repeat split; [constructor|]. intros k d Hd. by destruct k. }
    simpl. unfold batch_size. rewrite py_range_seqZ.
    set (batch_end := Z.min (s + 3) limit).
    destruct (batch_items_spec (Z.to_nat (batch_end - s)) s output_data)
      as (recs1 & Hb & Hrecs1); [lia|subst batch_end; lia|].
    rewrite Z2Nat.id in Hb, Hrecs1 by (subst batch_end; lia).
    rewrite Hb. unfold_bind.
    destruct (IH (s + 3) (output_data ++ recs1)
                (dumps ++ [output_data ++ recs1]))
      as (recs2 & later & -> & Hrecs2 & Hnone & Hlater); [lia|lia|lia|].
    exists (recs1 ++ recs2), ((output_data ++ recs1) :: later).
    rewrite <- !app_assoc. split; [done|].
    assert (length recs1 = Z.to_nat (batch_end - s)) as Hlen1.
    { apply Forall2_length in Hrecs1. by rewrite length_seqZ in Hrecs1. }
    split; [|split; [intros; lia|]].
    + replace (limit - s) with ((batch_end - s) + (limit - batch_end))
        by lia.
      rewrite seqZ_app by (subst batch_end; lia).
      apply Forall2_app; [done|].
      replace (s + (batch_end - s)) with batch_end by lia.
      destruct (Z.le_gt_cases limit (s + 3)).
      * rewrite seqZ_nil by (subst batch_end; lia).
        rewrite seqZ_nil in Hrecs2 by lia. done.
      * replace batch_end with (s + 3) by (subst batch_end; lia). done.
    + intros [|k] d Hd.
      * injection Hd as <-.
        replace (Z.min (s + 3 * (Z.of_nat 0 + 1)) limit - s)
          with (batch_end - s) by (subst batch_end; lia).
        rewrite <- Hlen1, app_assoc, <- length_app.
        by rewrite take_app_length.
      * simpl in Hd.
        destruct (Z.le_gt_cases limit (s + 3)) as [Hend|Hmore].
        { rewrite (Hnone Hend) in Hd. done. }
        pose proof (Hlater k d Hd) as ->.
        rewrite <- (app_assoc output_data recs1 recs2). f_equal.
        rewrite length_app, Hlen1. subst batch_end. lia.
Qed.

(** X15: the batch loop classifies the first [min(len(filtered_repos),
    max_results)] ranked items, each exactly once and in ranking order,
    whatever the classification answers; and the data handed to
    [json.dump] after the batch number [k] (from 0) is the first
    [min(3 * (k + 1), that number)] records of the final output. *)
Theorem X15_batches_cover_ranked_prefix max_results :
  ∃ output_data dumps,
    classify_all analyze_with_ai a net filtered_repos max_results =
      Ok (output_data, dumps) ∧
    length output_data =
      Z.to_nat (Z.min (Z.of_nat (length filtered_repos)) max_results) ∧
    (∀ (i : nat) r, output_data !! i = Some r →
       ∃ repo, filtered_repos !! i = Some repo ∧
               r = classified analyze_with_ai a net (Z.of_nat i) repo) ∧
    (∀ (k : nat) d, dumps !! k = Some d →
       d = take (Z.to_nat (Z.min (3 * (Z.of_nat k + 1))
                             (Z.min (Z.of_nat (length filtered_repos))
                                max_results)))
             output_data).
Proof.
  unfold classify_all.
  set (limit := Z.min (Z.of_nat (length filtered_repos)) max_results).
  unfold py_range.
  destruct (batches_spec (Z.to_nat (limit - 0)) limit 0 [] [])
    as (recs & later & -> & Hrecs & _ & Hlater); [lia|subst limit; lia|lia|].
  exists recs, later. simpl. split; [done|].
  rewrite Z.sub_0_r in Hrecs. split; [|split].
  - apply Forall2_length in Hrecs. by rewrite length_seqZ in Hrecs.
  - intros i r Hr.
    destruct (Forall2_lookup_r _ _ _ _ _ Hrecs Hr) as (idx & Hidx & Hrec).
    apply lookup_seqZ in Hidx as [-> _].
    destruct Hrec as (repo & Hrepo & ->). rewrite Z.add_0_l in *.
    rewrite Nat2Z.id in Hrepo. by exists repo.
  - intros k d Hd. rewrite (Hlater k d Hd). simpl. f_equal. lia.
Qed.

End batch_facts.

(** ** [run_crawler] from the merged search results on *)

Section pipeline_facts.

Import Runner.

Ltac unfold_bind := unfold mbind, result_bind, bind in *.

Lemma classified_full_name analyze_with_ai a net idx repo :
  full_name (classified analyze_with_ai a net idx repo) = full_name repo.
Proof.
  unfold full_name, classified, get at 1.
  rewrite lookup_insert_ne by done. unfold Utils.repo_data. simpl.
  rewrite lookup_insert_ne by done. by rewrite lookup_insert_eq.
Qed.

Lemma classified_sort_key analyze_with_ai a net idx repo :
  Crawler.sort_key (classified analyze_with_ai a net idx repo) =
  Crawler.sort_key repo.
Proof.
  unfold Crawler.sort_key, classified.
  rewrite lookup_insert_ne by done. unfold Utils.repo_data. simpl.
  rewrite !lookup_insert_ne by done. rewrite lookup_insert_eq.
  unfold get. by destruct (repo !! "keyword_match_count") as [[]|].
Qed.

Lemma classified_count analyze_with_ai a net idx repo :
  repo !! "keyword_match_count" = Some (VInt (Crawler.sort_key repo)) →
  classified analyze_with_ai a net idx repo !! "keyword_match_count" =
  Some (VInt (Crawler.sort_key repo)).
Proof.
  intros H. unfold classified.
  rewrite lookup_insert_ne by done. unfold Utils.repo_data. simpl.
  rewrite !lookup_insert_ne by done. rewrite lookup_insert_eq.
  unfold get. by rewrite H.
Qed.

Lemma sorted_transfer l k :
  Forall2 (λ x y, Crawler.sort_key y = Crawler.sort_key x) l k →
  StronglySorted ranks_before l → StronglySorted ranks_before k.
Proof.
  induction 1 as [|x y l k Hxy HF IH]; intros Hs; [constructor|].
  apply StronglySorted_inv in Hs as [Hs Hall]. constructor; [auto|].
  clear -Hxy HF Hall. induction HF as [|x' y' l k Hxy' HF IH]; [constructor|].
  apply Forall_cons in Hall as [Hx Hall].
  constructor; [|auto]. unfold ranks_before in *. lia.
Qed.

Lemma classify_all_records analyze_with_ai a net filtered_repos max_results
    output_data dumps :
  classify_all analyze_with_ai a net filtered_repos max_results =
    Ok (output_data, dumps) →
  Z.of_nat (length output_data) ≤ Z.max 0 max_results ∧
  Forall2 (record_of analyze_with_ai a net)
    (take (length output_data) filtered_repos) output_data.
Proof.
  unfold classify_all.
  set (limit := Z.min (Z.of_nat (length filtered_repos)) max_results).
  unfold py_range.
  destruct (batches_spec analyze_with_ai a net filtered_repos
              (Z.to_nat (limit - 0)) limit 0 [] [])
    as (recs & later & -> & Hrecs & _ & _); [lia|subst limit; lia|lia|].
  simpl. intros [= <- <-]. rewrite Z.sub_0_r in Hrecs.
  assert (length recs = Z.to_nat limit) as Hlen.
  { apply Forall2_length in Hrecs. by rewrite length_seqZ in Hrecs. }
  split; [subst limit; lia|].
  apply Forall2_same_length_lookup. split.
  - rewrite length_take. subst limit. lia.
  - intros i repo r Hrepo Hr.
    apply lookup_take_Some in Hrepo as [Hrepo _].
    destruct (Forall2_lookup_r _ _ _ _ _ Hrecs Hr) as (idx & Hidx & Hrec).
    apply lookup_seqZ in Hidx as [-> _].
    destruct Hrec as (repo' & Hrepo' & ->). rewrite Z.add_0_l in *.
    rewrite Nat2Z.id in Hrepo'. rewrite Hrepo in Hrepo'.
    injection Hrepo' as <-. by eexists.
Qed.

(** X16: what [run_crawler] returns, from the merged search results on:
    at most [max_results] records; no identity twice; the records stand in
    ranking order, highest match count first; and each record is the
    classified record of the scored copy of a search result, with a match
    count of at least one under [keyword_match_count] and with the key
    [ai_response] present. *)
Theorem X16_pipeline_output analyze_with_ai a net all_repos max_results
    output_data dumps :
  run_after_search analyze_with_ai a net all_repos max_results =
    Ok (output_data, dumps) →
  Z.of_nat (length output_data) ≤ Z.max 0 max_results ∧
  NoDup (full_name <$> output_data) ∧
  StronglySorted ranks_before output_data ∧
  ∀ r, r ∈ output_data →
    (∃ repo o idx,
       repo ∈ all_repos ∧
       scored required_keywords exclude_keywords repo = Some o ∧
       r = classified analyze_with_ai a net idx o) ∧
    r !! "keyword_match_count" = Some (VInt (Crawler.sort_key r)) ∧
    1 ≤ Crawler.sort_key r ∧
    is_Some (r !! "ai_response").
Proof.
  unfold run_after_search. intros H.
  destruct (Utils.unique_repos_list all_repos) as [unique|e] eqn:Hu;
    [|discriminate].
  unfold_bind.
  destruct (Crawler.filter_embedded_systems_repos unique required_keywords
              exclude_keywords) as [filtered|e] eqn:Hf; [|discriminate].
  apply unique_repos_list_inv in Hu as [_ ->].
  apply filter_output_eq in Hf. 
  apply classify_all_records in H as [Hlen Hrecs].
  set (n := length output_data) in *.
  assert (full_name <$> output_data = full_name <$> take n filtered) as Hnames.
  { clear -Hrecs. induction Hrecs as [|x y l k [idx ->] _ IH]; [done|].
    rewrite !fmap_cons, IH. by rewrite classified_full_name. }
  split; [done|]. split; [|split].
  - rewrite Hnames, fmap_take.
    eapply sublist_NoDup; [|apply sublist_take].
    rewrite Hf, sort_desc_perm.
    eapply sublist_NoDup; [|apply omap_scored_full_name].
    apply fresh_NoDup_full_name.
  - apply (sorted_transfer (take n filtered)).
    + eapply Forall2_impl; [exact Hrecs|].
      intros x y [idx ->]. apply classified_sort_key.
    + apply (StronglySorted_app_1_l _ _ (drop n filtered)).
      rewrite take_drop, Hf. apply sort_desc_sorted.
  - intros r Hr.
    apply list_elem_of_lookup in Hr as [i Hr].
    destruct (Forall2_lookup_r _ _ _ _ _ Hrecs Hr) as (o & Ho & [idx ->]).
    apply lookup_take_Some in Ho as [Ho _].
    apply list_elem_of_lookup_2 in Ho. rewrite Hf, sort_desc_perm in Ho.
    apply list_elem_of_omap in Ho as (repo & Hrepo & Hs).
    pose proof (scored_sort_key _ _ _ _ Hs) as [Hc H1].
    rewrite classified_sort_key. repeat split.
    + exists repo, o, idx. repeat split; [|done].
      eapply elem_of_sublist; [exact Hrepo|]. apply fresh_sublist.
    + by apply classified_count.
    + done.
    + unfold classified. rewrite lookup_insert_eq. by eexists.
Qed.

End pipeline_facts.

Lemma X16_witness :
  ∃ output_data dumps,
    Runner.run_after_search true gemini_analyzer sample_backends
      sample_results 5 = Ok (output_data, dumps) ∧
    NoDup (full_name <$> output_data) ∧
    StronglySorted ranks_before output_data.
Proof.
  assert (match Runner.run_after_search true gemini_analyzer sample_backends
                  sample_results 5 with
          | Ok _ => true
          | Raise _ => false
          end = true) as Hok by (vm_compute; reflexivity).
  destruct (Runner.run_after_search true gemini_analyzer sample_backends
              sample_results 5) as [[output_data dumps]|e] eqn:Hrun;
    [|discriminate].
  exists output_data, dumps. split; [done|].
  pose proof (X16_pipeline_output true gemini_analyzer sample_backends
                sample_results 5 output_data dumps Hrun) as H.
  exact (conj (proj1 (proj2 H)) (proj1 (proj2 (proj2 H)))).
Defined.

(** ** The CSV rows of the output *)

Section csv_facts.

Import Runner.

Ltac unfold_bind := unfold mbind, result_bind, bind in *.

Lemma pipeline_record_origin analyze_with_ai a net all_repos max_results
    output_data dumps :
  run_after_search analyze_with_ai a net all_repos max_results =
    Ok (output_data, dumps) →
  ∀ r, r ∈ output_data →
    ∃ repo o idx,
      repo ∈ all_repos ∧
      scored required_keywords exclude_keywords repo = Some o ∧
      r = classified analyze_with_ai a net idx o.
Proof.
  unfold run_after_search. intros H r Hr.
  destruct (Utils.unique_repos_list all_repos) as [unique|e] eqn:Hu;
    [|discriminate].
  unfold_bind.
  destruct (Crawler.filter_embedded_systems_repos unique required_keywords
              exclude_keywords) as [filtered|e] eqn:Hf; [|discriminate].
  apply unique_repos_list_inv in Hu as [_ ->].
  apply filter_output_eq in Hf.
  apply classify_all_records in H as [_ Hrecs].
  apply list_elem_of_lookup in Hr as [i Hr].
  destruct (Forall2_lookup_r _ _ _ _ _ Hrecs Hr) as (o & Ho & [idx ->]).
  apply lookup_take_Some in Ho as [Ho _].
  apply list_elem_of_lookup_2 in Ho. rewrite Hf, sort_desc_perm in Ho.
  apply list_elem_of_omap in Ho as (repo & Hrepo & Hs).
  exists repo, o, idx. repeat split; [|done].
  eapply elem_of_sublist; [exact Hrepo|]. apply fresh_sublist.
Qed.

Lemma py_join_strings sep ms :
  py_join sep (VList (VStr <$> ms)) = Ok (PyStr.join sep ms).
Proof.
  assert (map_result (λ t, match t with VStr s => Ok s | _ => Raise TypeError end)
            (VStr <$> ms) = Ok ms) as E.
  { induction ms as [|m ms IH]; [done|].
    rewrite fmap_cons. cbn [map_result bind]. by rewrite IH. }
  unfold py_join, py_iter, bind at 1. by rewrite E.
Qed.

Lemma py_join_topics sep repo ts :
  Crawler.repo_topics repo = Ok ts →
  ∃ s, py_join sep (get repo "topics" (VList [])) = Ok s.
Proof.
  unfold Crawler.repo_topics, py_join.
  destruct (py_iter (get repo "topics" (VList []))) as [items|e];
    [|discriminate].
  unfold_bind. intros H.
  assert (∃ ss, map_result (λ t, match t with
                                  | VStr s => Ok s
                                  | _ => Raise TypeError
                                  end) items = Ok ss) as [ss ->].
  { clear -H. revert ts H. induction items as [|t items IH]; intros ts H.
    - by eexists.
    - simpl in H. destruct t; try discriminate. simpl in H.
      destruct (map_result py_lower items) as [ls|e] eqn:E; [|discriminate].
      destruct (IH _ eq_refl) as [ss Hss]. simpl. rewrite Hss.
      by eexists. }
  by eexists.
Qed.

Lemma classified_get analyze_with_ai a net idx o k dflt v :
  k ≠ "ai_response" → Utils.repo_data o !! k = Some v →
  get (classified analyze_with_ai a net idx o) k dflt = v.
Proof.
  intros Hk Hv. unfold get, classified.
  rewrite lookup_insert_ne by done. by rewrite Hv.
Qed.

Lemma csv_row_classified analyze_with_ai a net idx req excl repo o :
  scored req excl repo = Some o →
  ∃ ms topics_str,
    ms ≠ [] ∧
    csv_row (classified analyze_with_ai a net idx o) =
    Ok [get repo "html_url" VNone;
        get repo "name" VNone;
        get repo "description" VNone;
        get repo "language" VNone;
        get repo "stargazers_count" VNone;
        VInt (Z.of_nat (length ms));
        VStr (PyStr.join ", " ms);
        VStr topics_str;
        answer_value (Utils.ai_response analyze_with_ai a (Utils.repo_data o)
                        (net idx))].
Proof.
  intros (name & d & ts & ms & _ & _ & Ht & _ & _ & Hne & ->)%scored_inv.
  destruct (py_join_topics ", " repo ts Ht) as [topics_str Hjoin].
  exists ms, topics_str. split; [done|].
  set (o := Crawler.repo_copy repo (Z.of_nat (length ms)) ms).
  assert (∀ k, k ≠ "matching_keywords" → k ≠ "keyword_match_count" →
               ∀ dflt, get o k dflt = get repo k dflt) as Hsame.
  { intros k H1 H2 dflt. unfold get, o. by rewrite repo_copy_lookup. }
  assert (get o "matching_keywords" (VList []) = VList (VStr <$> ms)) as Hms.
  { unfold get, o, Crawler.repo_copy. by rewrite lookup_insert_eq. }
  assert (get o "keyword_match_count" (VInt 0) = VInt (Z.of_nat (length ms)))
    as Hmc.
  { unfold get, o, Crawler.repo_copy. rewrite lookup_insert_ne by done.
    by rewrite lookup_insert_eq. }
  unfold csv_row.
  rewrite (classified_get _ _ _ _ o "topics" _ (get o "topics" (VList [])));
    [|done|unfold Utils.repo_data; simpl;
           rewrite !lookup_insert_ne by done; by rewrite lookup_insert_eq].
  rewrite (classified_get _ _ _ _ o "matching_keywords" _
             (get o "matching_keywords" (VList [])));
    [|done|unfold Utils.repo_data; simpl;
           rewrite !lookup_insert_ne by done; by rewrite lookup_insert_eq].
  rewrite (classified_get _ _ _ _ o "html_url" _ (get o "html_url" VNone));
    [|done|unfold Utils.repo_data; simpl;
           rewrite !lookup_insert_ne by done; by rewrite lookup_insert_eq].
  rewrite (classified_get _ _ _ _ o "name" _ (get o "name" VNone));
    [|done|unfold Utils.repo_data; simpl; by rewrite lookup_insert_eq].
  rewrite (classified_get _ _ _ _ o "description" _ (get o "description" VNone));
    [|done|unfold Utils.repo_data; simpl;
           rewrite !lookup_insert_ne by done; by rewrite lookup_insert_eq].
  rewrite (classified_get _ _ _ _ o "language" _ (get o "language" VNone));
    [|done|unfold Utils.repo_data; simpl;
           rewrite !lookup_insert_ne by done; by rewrite lookup_insert_eq].
  rewrite (classified_get _ _ _ _ o "stars" _ (get o "stargazers_count" VNone));
    [|done|unfold Utils.repo_data; simpl;
           rewrite !lookup_insert_ne by done; by rewrite lookup_insert_eq].
  rewrite (classified_get _ _ _ _ o "keyword_match_count" _
             (get o "keyword_match_count" (VInt 0)));
    [|done|unfold Utils.repo_data; simpl;
           rewrite !lookup_insert_ne by done; by rewrite lookup_insert_eq].
  rewrite Hms, Hmc, !Hsame by done.
  rewrite Hjoin, py_join_strings. unfold_bind.
  unfold get at 6, classified. by rewrite lookup_insert_eq.
Qed.

Lemma save_csv_rows_ok (P : gmap string value → list value → Prop) repos written :
  Forall (λ r, ∃ row, csv_row r = Ok row ∧ P r row) repos →
  ∃ rows, save_csv_rows repos written = (written ++ rows, None) ∧
          Forall2 (λ r row, csv_row r = Ok row ∧ P r row) repos rows.
Proof.
  intros H. revert written.
  induction H as [|r repos (row & Hrow & HP) _ IH]; intros written.
  - exists []. simpl. by rewrite app_nil_r.
  - simpl. rewrite Hrow. destruct (IH (written ++ [row])) as (rows & -> & HF).
    exists (row :: rows). rewrite <- app_assoc. split; [done|].
    by constructor.
Qed.

(** X18: writing the CSV rows of what [run_crawler] returns raises no
    exception: there is one row of nine cells per record, in the order of
    the records. The row of a record shows the URL, name, description,
    language and star count as the search result of that identity gives
    them, null when it lacks the key (the defaults of [save_csv] never
    apply); then the match count, which is the number of matching keywords
    and at least one, the keywords and the topics joined by commas, and the
    stored answer. *)
Theorem X18_csv_rows_of_output analyze_with_ai a net all_repos max_results
    output_data dumps :
  run_after_search analyze_with_ai a net all_repos max_results =
    Ok (output_data, dumps) →
  ∃ rows,
    save_csv output_data = (rows, None) ∧
    Forall2 (λ r row,
      csv_row r = Ok row ∧
      ∃ repo ms topics_str answer,
        repo ∈ all_repos ∧ full_name repo = full_name r ∧ ms ≠ [] ∧
        r !! "ai_response" = Some answer ∧
        row = [get repo "html_url" VNone;
               get repo "name" VNone;
               get repo "description" VNone;
               get repo "language" VNone;
               get repo "stargazers_count" VNone;
               VInt (Z.of_nat (length ms));
               VStr (PyStr.join ", " ms);
               VStr topics_str;
               answer]) output_data rows.
Proof.
  intros H. unfold save_csv.
  destruct (save_csv_rows_ok
              (λ r row, ∃ repo ms topics_str answer,
                 repo ∈ all_repos ∧ full_name repo = full_name r ∧ ms ≠ [] ∧
                 r !! "ai_response" = Some answer ∧
                 row = [get repo "html_url" VNone;
                        get repo "name" VNone;
                        get repo "description" VNone;
                        get repo "language" VNone;
                        get repo "stargazers_count" VNone;
                        VInt (Z.of_nat (length ms));
                        VStr (PyStr.join ", " ms);
                        VStr topics_str;
                        answer]) output_data []) as (rows & Hrows & HF).
  - apply Forall_forall. intros r Hr.
    destruct (pipeline_record_origin _ _ _ _ _ _ _ H r Hr)
      as (repo & o & idx & Hrepo & Hs & ->).
    destruct (csv_row_classified analyze_with_ai a net idx _ _ _ _ Hs)
      as (ms & topics_str & Hne & Hrow).
    eexists. split; [exact Hrow|].
    exists repo, ms, topics_str. eexists.
    split; [done|]. split; [|split; [done|split; [|done]]].
    + rewrite classified_full_name. symmetry. by eapply scored_full_name.
    + unfold classified. by rewrite lookup_insert_eq.
  - exists rows. by split.
Qed.

End csv_facts.

Lemma X18_witness :
  ∃ output_data dumps rows,
    Runner.run_after_search true gemini_analyzer sample_backends
      sample_results 5 = Ok (output_data, dumps) ∧
    Runner.save_csv output_data = (rows, None) ∧
    length rows = length output_data.
Proof.
  assert (match Runner.run_after_search true gemini_analyzer sample_backends
                  sample_results 5 with
          | Ok _ => true
          | Raise _ => false
          end = true) as Hok by (vm_compute; reflexivity).
  destruct (Runner.run_after_search true gemini_analyzer sample_backends
              sample_results 5) as [[output_data dumps]|e] eqn:Hrun;
    [|discriminate].
  destruct (X18_csv_rows_of_output true gemini_analyzer sample_backends
              sample_results 5 output_data dumps Hrun) as (rows & Hrows & HF).
  exists output_data, dumps, rows. split; [done|]. split; [exact Hrows|].
  symmetry. exact (Forall2_length _ _ _ HF).
Defined.

(** ** [Repository] objects *)

Section model_facts.

Import Models.

(** X17: [to_dict] is no inverse of the constructor. A [Repository] built
    from the dictionary of another keeps nine attributes and loses three:
    its stars and forks are 0 and its date of last update is the empty
    string, whatever the first object held, because [to_dict] writes the
    keys [stars], [forks] and [last_updated] and the constructor reads
    [stargazers_count], [forks_count] and [updated_at]. The same holds for
    a [Repository] built from a record of the pipeline's output, whatever
    star count the search result carries. *)
Theorem X17_to_dict_loses_counts :
  (∀ r,
     init (to_dict r) =
     {| name := name r; full_name := full_name r; html_url := html_url r;
        description := description r; language := language r;
        stars := VInt 0; forks := VInt 0; last_updated := VStr "";
        topics := topics r; keyword_match_count := keyword_match_count r;
        matching_keywords := matching_keywords r;
        ai_response := ai_response r |}) ∧
  (∀ analyze_with_ai a net idx repo,
     let r := init (Runner.classified analyze_with_ai a net idx repo) in
     stars r = VInt 0 ∧ forks r = VInt 0 ∧ last_updated r = VStr "" ∧
     Runner.classified analyze_with_ai a net idx repo !! "stars" =
       Some (get repo "stargazers_count" VNone)).
Proof.
  split.
  - intros r. unfold init, get, to_dict. simpl.
    repeat (rewrite ?lookup_insert_ne by done; rewrite ?lookup_insert_eq).
    rewrite !lookup_empty. done.
  - intros analyze_with_ai a net idx repo.
    cbv zeta. cbn [init stars forks last_updated].
    unfold Runner.classified, Utils.repo_data. cbn [list_to_map foldr uncurry].
    repeat split; try unfold get at 1;
      repeat (rewrite ?lookup_insert_ne by done; rewrite ?lookup_insert_eq);
      rewrite ?lookup_empty; done.
Qed.

End model_facts.

(** ** More on deduplication *)

Section dedup_more_facts.

Import Utils.

Ltac unfold_bind := unfold mbind, result_bind, bind in *.

Lemma dedup_loop_cases rest acc :
  (Forall hashable rest ∧ ∃ out, dedup_loop rest acc = Ok out) ∨
  (Exists (λ r, ∃ l, full_name r = VList l) rest ∧
   dedup_loop rest acc = Raise TypeError).
Proof.
  revert acc. induction rest as [|repo rest IH]; intros acc.
  - left. split; [constructor|by eexists].
  - simpl. fold (full_name repo).
    destruct (full_name repo) as [|s|n|l] eqn:E; simpl;
      try (unfold_bind;
           match goal with
           | |- context [bool_decide ?P] =>
               destruct (bool_decide P);
               [destruct (IH acc) as [[Hh Hout]|[Hex Hr]]
               |match goal with
                | |- context [dedup_loop rest ?acc'] =>
                    destruct (IH acc') as [[Hh Hout]|[Hex Hr]]
                end];
               [left; split; [constructor; [|done]|done]
               |right; split; [by right|done]
               |left; split; [constructor; [|done]|done]
               |right; split; [by right|done]];
               intros l Hl; rewrite E in Hl; discriminate
           end).
    right. split; [|done]. left. by exists l.
Qed.

(** X19: a search result that carries a list under [full_name] makes the
    deduplication step raise [TypeError], the error of an unhashable
    dictionary key, whatever the other results are; that step stands in no
    [try], so the run raises with it, before any filtering or
    classification. *)
Theorem X19_list_identity_raises analyze_with_ai a net all_repos max_results :
  Exists (λ r, ∃ l, full_name r = VList l) all_repos →
  unique_repos_list all_repos = Raise TypeError ∧
  Runner.run_after_search analyze_with_ai a net all_repos max_results =
    Raise TypeError.
Proof.
  intros Hex.
  assert (unique_repos_list all_repos = Raise TypeError) as Hraise.
  { unfold unique_repos_list.
    destruct (dedup_loop_cases all_repos []) as [[Hh _]|[_ ->]]; [|done].
    apply Exists_exists in Hex as (r & Hr & l & Hl).
    by destruct (proj1 (Forall_forall _ _) Hh r Hr l). }
  split; [done|]. unfold Runner.run_after_search. by rewrite Hraise.
Qed.

Lemma fresh_distinct_id seen l :
  NoDup (key_of <$> l) → (∀ r, r ∈ l → key_of r ∉ seen) →
  (fresh seen l).*2 = l.
Proof.
  revert seen. induction l as [|r l IH]; intros seen Hnd Hseen; [done|].
  rewrite fmap_cons in Hnd. apply NoDup_cons in Hnd as [Hr Hnd].
  simpl. rewrite bool_decide_eq_false_2 by (apply Hseen; left).
  simpl. f_equal. apply IH; [done|].
  intros x Hx [Hin|Hin]%elem_of_app.
  - apply (Hseen x); [by right|done].
  - apply list_elem_of_singleton in Hin. apply Hr. rewrite <- Hin.
    by apply list_elem_of_fmap_2.
Qed.

(** X20: results of a later search never change what deduplication kept
    of the earlier ones: the unique list of [l1 ++ l2] starts with the
    unique list of [l1], and goes on with items of [l2], in their order,
    whose identity no item of [l1] carries. And deduplication is
    idempotent: applied to its own output it returns that output. *)
Theorem X20_dedup_extends l1 l2 out :
  unique_repos_list (l1 ++ l2) = Ok out →
  ∃ out1 more,
    unique_repos_list l1 = Ok out1 ∧
    out = out1 ++ more ∧
    sublist more l2 ∧
    (∀ r x, r ∈ more → x ∈ l1 → full_name x ≠ full_name r) ∧
    unique_repos_list out = Ok out.
Proof.
  intros H. pose proof H as [Hh ->]%unique_repos_list_inv.
  apply Forall_app in Hh as [Hh1 Hh2].
  exists (fresh [] l1).*2, (fresh ([] ++ (fresh [] l1).*1) l2).*2.
  split; [|split; [|split; [|split]]].
  - unfold unique_repos_list. by rewrite (dedup_loop_fresh _ [] Hh1).
  - by rewrite fresh_app, fmap_app.
  - apply fresh_sublist.
  - intros r x Hr Hx Hfn.
    assert (key_of r ∈ (fresh ([] ++ (fresh [] l1).*1) l2).*1) as Hk.
    { rewrite fresh_keys. by apply list_elem_of_fmap_2. }
    apply fresh_new in Hk. apply Hk. simpl.
    destruct (fresh_cover [] l1 x Hx) as [Hnil|Hin].
    + by apply elem_of_nil in Hnil.
    + unfold key_of in *. by rewrite <- Hfn.
  - set (out := (fresh [] (l1 ++ l2)).*2).
    assert (Forall hashable out) as Hout.
    { apply Forall_forall. intros r Hr.
      assert (r ∈ l1 ++ l2) as Hin
        by (eapply elem_of_sublist; [exact Hr|apply fresh_sublist]).
      assert (Forall hashable (l1 ++ l2)) as Hall by by apply Forall_app.
      by apply (proj1 (Forall_forall _ _) Hall). }
    unfold unique_repos_list. rewrite (dedup_loop_fresh _ [] Hout).
    unfold_bind. simpl. f_equal. apply fresh_distinct_id.
    + unfold out. rewrite <- fresh_keys. apply fresh_NoDup.
    + intros r _ Hr. by apply elem_of_nil in Hr.
Qed.

End dedup_more_facts.

Lemma X20_witness :
  ∃ out1 more,
    Utils.unique_repos_list [sample_repo; sample_course] = Ok out1 ∧
    [sample_repo; sample_course] = out1 ++ more ∧
    sublist more [sample_repo_again] ∧
    (∀ r x, r ∈ more → x ∈ [sample_repo; sample_course] →
            full_name x ≠ full_name r) ∧
    Utils.unique_repos_list [sample_repo; sample_course] =
      Ok [sample_repo; sample_course].
Proof.
  apply (X20_dedup_extends [sample_repo; sample_course] [sample_repo_again]
           [sample_repo; sample_course]).
  vm_compute. reflexivity.
Defined.

Lemma X19_witness :
  Utils.unique_repos_list [sample_repo; sample_unhashable] = Raise TypeError ∧
  Runner.run_after_search true gemini_analyzer sample_backends
    [sample_repo; sample_unhashable] 5 = Raise TypeError.
Proof.
  apply (X19_list_identity_raises true gemini_analyzer sample_backends
           [sample_repo; sample_unhashable] 5).
  apply Exists_cons_tl, Exists_cons_hd.
  exists [VStr "org"; VStr "stm32-hal"]. vm_compute. reflexivity.
Defined.

(** ** The searches of [run_crawler] *)

Section search_all_facts.

Import Crawler Runner.

Context (net : search_params → net_event) (clock : search_params → Z)
        (sleep_max : Z).





Lemma search_one_stuck c query language min_stars max_pages :
  stuck clock sleep_max c →
  search_one net clock sleep_max c query language min_stars max_pages =
    Some (c, Raise OverflowError) ∨
  search_one net clock sleep_max c query language min_stars max_pages =
    Some (c, Ok []).
Proof.
  intros Hstuck. unfold search_one, search_repos_fuel.
  destruct (Z.to_nat max_pages) as [|fuel] eqn:Hfuel.
  - right. simpl. by destruct (Z.leb_spec 1 max_pages); [lia|].
  - left.
    destruct (Hstuck (params_of (search_query query (Some language) min_stars)
                        "stars" "desc" 1)) as (secs & Hdue & Hfar).
    by apply (search_loop_wait_raises net clock sleep_max _ _ _ max_pages
                fuel c 1 [] secs); [lia|..].
Qed.

(** X22: once the crawler holds counters with which a wait is due before
    every request and none can be slept (no calls left and a reset epoch
    far ahead, such as one sent in milliseconds), every later search of
    the run raises at its first request, the handler of line 163 skips the
    query, and the search phase adds nothing more: it ends with the list
    and the counters that it had. *)
Theorem X22_far_reset_ends_searches min_stars max_pages queries c all_repos :
  stuck clock sleep_max c →
  search_all net clock sleep_max min_stars max_pages queries c all_repos =
  Some (c, all_repos).
Proof.
  intros Hstuck. revert all_repos.
  induction queries as [|query rest IH]; intros all_repos; [done|].
  cbn [search_all].
  destruct (search_one_stuck c query "c" min_stars max_pages Hstuck)
    as [-> | ->]; [apply IH|].
  cbv zeta. rewrite app_nil_r.
  destruct (search_one_stuck c query "c++" min_stars max_pages Hstuck)
    as [-> | ->]; [apply IH|].
  rewrite app_nil_r.
  destruct (bool_decide (query ∈ ["embedded systems"; "firmware"]));
    [|apply IH].
  destruct (search_one_stuck c query "assembly" min_stars max_pages Hstuck)
    as [-> | ->]; [apply IH|].
  rewrite app_nil_r. apply IH.
Qed.

End search_all_facts.


Lemma X22_witness :
  Runner.search_all far_reset_net sample_clock sample_sleep_max 10 5
    Runner.broader_queries far_reset_crawler [sample_repo] =
  Some (far_reset_crawler, [sample_repo]).
Proof.
  apply (X22_far_reset_ends_searches far_reset_net sample_clock
           sample_sleep_max 10 5 Runner.broader_queries far_reset_crawler
           [sample_repo]).
  intros p. exists 1698300060001. split; [vm_compute; reflexivity|].
  unfold sample_sleep_max. lia.
Defined.
